(** * A hash-linked star registry: the [Blockchain] class of [src/blockchain.js]

  The development embeds the methods of the class as Rocq functions over an
  explicit ledger state, together with the settle-once behaviour of the
  promises they return, and proves (or refutes) the properties stated for
  them. *)

From Stdlib Require Import ZArith List String Ascii Bool Lia.
From Stdlib Require Import DecimalString DecimalPos DecimalZ.
Import ListNotations.
Open Scope string_scope.
Open Scope Z_scope.

Set Implicit Arguments.

(** ** JavaScript primitives used by the class *)

Module JS.

(** JavaScript numbers, as far as the class uses them: integers and [NaN],
    [None] standing for [NaN].  A number is modelled by the integer it
    denotes; JavaScript rounds integers beyond 2^53 in magnitude, which no
    clock reading in seconds or milliseconds reaches. *)
Definition Num := option Z.

Definition NaN : Num := None.

(** [a - b]: [NaN] as soon as one operand is. *)
Definition sub (a b : Num) : Num :=
  match a, b with
  | Some x, Some y => Some (x - y)
  | _, _ => None
  end.

(** [a > n]: a comparison with [NaN] is false. *)
Definition gt (a : Num) (n : Z) : bool :=
  match a with
  | Some x => n <? x
  | None => false
  end.

(** [Number.prototype.toString()] on an integer. *)
Definition toString (n : Z) : string :=
  NilZero.string_of_int (Z.to_int n).

(** [s.slice(0, -3)]: everything but the last three characters. *)
Definition slice_0_m3 (s : string) : string :=
  substring 0 (String.length s - 3) s.

(** [s.split(sep)] for a one-character separator. *)
Fixpoint split_aux (sep : ascii) (s : string) (cur : string) : list string :=
  match s with
  | EmptyString => [cur]
  | String c rest =>
      if Ascii.eqb c sep then cur :: split_aux sep rest EmptyString
      else split_aux sep rest (cur ++ String c EmptyString)
  end.

Definition split (sep : ascii) (s : string) : list string :=
  split_aux sep s EmptyString.

(** [StrWhiteSpaceChar], on character codes below 256. *)
Definition isWhiteSpace (c : ascii) : bool :=
  let n := nat_of_ascii c in
  ((9 <=? n) && (n <=? 13))%nat || (n =? 32)%nat || (n =? 160)%nat.

Fixpoint trimStart (s : string) : string :=
  match s with
  | String c rest => if isWhiteSpace c then trimStart rest else s
  | EmptyString => EmptyString
  end.

(** The value of a digit in the given radix, when the character is one. *)
Definition digitValue (radix : Z) (c : ascii) : option Z :=
  let n := Z.of_nat (nat_of_ascii c) in
  let v :=
    if (48 <=? n) && (n <=? 57) then Some (n - 48)
    else if (97 <=? n) && (n <=? 122) then Some (n - 87)
    else if (65 <=? n) && (n <=? 90) then Some (n - 55)
    else None in
  match v with
  | Some d => if d <? radix then Some d else None
  | None => None
  end.

(** The longest prefix of radix digits, read as a number; [None] when the
    prefix is empty. *)
Fixpoint digits (radix : Z) (s : string) (acc : option Z) : option Z :=
  match s with
  | EmptyString => acc
  | String c rest =>
      match digitValue radix c with
      | Some d =>
          digits radix rest
            (Some (match acc with Some a => a * radix + d | None => d end))
      | None => acc
      end
  end.

(** [parseInt(s)] with no radix argument: leading white space is skipped,
    a sign is read, a [0x] or [0X] prefix switches to radix 16, and the
    longest digit prefix is the value; [NaN] when there is no digit. *)
Definition parseInt (s : string) : Num :=
  let s1 := trimStart s in
  let '(sign, s2) :=
    match s1 with
    | String "-" rest => (-1, rest)
    | String "+" rest => (1, rest)
    | _ => (1, s1)
    end in
  let '(radix, s3) :=
    match s2 with
    | String "0" (String "x" rest) => (16, rest)
    | String "0" (String "X" rest) => (16, rest)
    | _ => (10, s2)
    end in
  match digits radix s3 None with
  | Some m => Some (sign * m)
  | None => None
  end.

(** [parseInt(x)] where [x] may be [undefined] (an array index out of
    range): the argument is first converted to a string. *)
Definition parseInt_value (x : option string) : Num :=
  parseInt (match x with Some s => s | None => "undefined" end).

(** [new Date().getTime().toString().slice(0, -3)], for the clock reading
    [now] in milliseconds. *)
Definition seconds_text (now : Z) : string :=
  slice_0_m3 (toString now).

End JS.

(** ** Values that cross the promise boundary *)

(** The reasons a promise of the class is rejected with: a message string,
  the array of validation messages, or an error object that was thrown. *)
Inductive Reason : Type :=
| Str (msg : string)
| StrList (msgs : list string)
| ReferenceError (msg : string)
| TypeError (msg : string)
| VerifierError (msg : string).

(** A promise settles at most once. *)
Inductive Promise (R : Type) : Type :=
| Pending
| Fulfilled (value : R)
| Rejected (reason : Reason).

Arguments Pending {R}.
Arguments Fulfilled {R} value.
Arguments Rejected {R} reason.

(** [resolve(v)] and [reject(e)] inside an executor: the first call settles
  the promise, every later call is ignored. *)
Definition resolve {R} (v : R) (p : Promise R) : Promise R :=
match p with
| Pending => Fulfilled v
| _ => p
end.

Definition reject {R} (e : Reason) (p : Promise R) : Promise R :=
match p with
| Pending => Rejected e
| _ => p
end.

(** The completion of a call that may throw. *)
Inductive Completion (A : Type) : Type :=
| Normal (a : A)
| Throw (e : Reason).

Arguments Normal {A} a.
Arguments Throw {A} e.

(** ** Records *)

(** The object handed to [new Block(...)]: the genesis marker
  [{ data: "Genesis Block" }] or a star submission
  [{ address, message, signature, star }].  The star document is kept as
  text. *)
Inductive Data : Type :=
| GenesisData
| StarData (address message signature star : string).

Module Block.

(** The fields of a block.  [hash] and [previousBlockHash] hold a string or
    [null]. *)
Record t : Type := mk
  { hash : option string;
    height : Z;
    body : string;
    time : string;
    previousBlockHash : option string }.

Definition set_hash (h : option string) (b : t) : t :=
  mk h (height b) (body b) (time b) (previousBlockHash b).

Definition set_height (n : Z) (b : t) : t :=
  mk (hash b) n (body b) (time b) (previousBlockHash b).

Definition set_time (ts : string) (b : t) : t :=
  mk (hash b) (height b) (body b) ts (previousBlockHash b).

Definition set_previousBlockHash (h : option string) (b : t) : t :=
  mk (hash b) (height b) (body b) (time b) h.

End Block.

(** [a === b] on values that are a string or [null]. *)
Definition strict_eq (a b : option string) : bool :=
match a, b with
| Some x, Some y => String.eqb x y
| None, None => true
| _, _ => false
end.

(** ** External collaborators

  The digest, the serialisation it is applied to, the signature verifier
  and the encoding of a block body are used through their interface
  only. *)
Class Collaborators : Type :=
{ (** [SHA256(text).toString()] of crypto-js *)
  SHA256 : string -> string;
  (** [JSON.stringify(block)] *)
  JSON_stringify : Block.t -> string;
  (** [bitcoinMessage.verify(message, address, signature)]: a boolean, or
      an error thrown on malformed input *)
  verify : string -> string -> string -> Completion bool;
  (** the encoding of the constructor argument into [body] *)
  encode : Data -> string;
  (** its decoding; [None] when the body does not decode *)
  decode : string -> option Data }.

Section Chain.

Context {C : Collaborators}.

(** Modelled from the spec: the constructor of [Block] (file [block.js],
    not part of the sources at hand).  A new record carries its encoded
    payload; its hash and predecessor hash are absent and its height and
    timestamp are still to be assigned. *)
Definition Block_new (data : Data) : Block.t :=
  Block.mk None 0 (encode data) EmptyString None.

(** Modelled from the spec: [block.validate()] of [block.js].  The digest
    is recomputed over the record's content with the stored hash left out
    and compared with the stored hash. *)
Definition Block_validate (b : Block.t) : bool :=
  strict_eq (Block.hash b)
            (Some (SHA256 (JSON_stringify (Block.set_hash None b)))).

(** Modelled from the spec: [block.getBData()] of [block.js], the decoded
    payload; [None] when decoding fails. *)
Definition Block_getBData (b : Block.t) : option Data :=
  decode (Block.body b).

(** The state of a [Blockchain] object. *)
Record Blockchain : Type := mkChain
  { chain : list Block.t;
    height : Z }.

(** [array[i]] for an integer [i]: [undefined] out of range. *)
Definition index {A} (l : list A) (i : Z) : option A :=
  if i <? 0 then None else nth_error l (Z.to_nat i).

(** *** validateChain (lines 273-318) *)

Definition broken_message (h : Z) : string :=
  "Chain is broken at Block " ++ JS.toString h ++
  ". It's 'previousBlockHash' is different to the previous blocks hash!".

(** The [forEach] callback run over [blocks], [all] being [self.chain] and
    [errorLog] the log so far.  Building the message for a block that fails
    [validate()] reads the variable [height], which is bound nowhere in
    scope: that throws. *)
Fixpoint validate_each (all blocks : list Block.t) (errorLog : list string)
  : Completion (list string) :=
  match blocks with
  | [] => Normal errorLog
  | block :: rest =>
      let blockValid := Block_validate block in
      if negb blockValid then
        Throw (ReferenceError "height is not defined")
      else if Block.height block =? 0 then
        validate_each all rest errorLog
      else
        let isNextBlock :=
          match
            find (fun previousBlock =>
                    strict_eq (Block.hash previousBlock)
                              (Block.previousBlockHash block)) all
          with
          | Some previousBlock =>
              Block.height previousBlock =? Block.height block - 1
          | None => false
          end in
        validate_each all rest
          (if negb isNextBlock
           then errorLog ++ [broken_message (Block.height block)]
           else errorLog)
  end.

Definition validateChain (self : Blockchain) : Promise (list string) :=
  match validate_each (chain self) (chain self) [] with
  | Normal errorLog => resolve errorLog Pending
  | Throw error => reject error Pending
  end.

(** *** _addBlock (lines 67-113)

    [block] is an object that is not yet in the chain, as in every call the
    class makes; [now] is the clock reading in milliseconds. *)
Definition _addBlock (block : Block.t) (now : Z) (self : Blockchain)
  : Promise Block.t * Blockchain :=
  let chain0 := chain self in
  let height0 := height self in
  let linked :=
    if (0 <? List.length chain0)%nat then
      match index chain0 height0 with
      | Some lastBlock =>
          Normal (Block.set_previousBlockHash (Block.hash lastBlock) block)
      | None =>
          Throw (TypeError "Cannot read properties of undefined (reading 'hash')")
      end
    else Normal block in
  match linked with
  | Throw error => (reject error Pending, self)
  | Normal block =>
      let newBlockHeight := height0 + 1 in
      let block := Block.set_height newBlockHeight block in
      let block := Block.set_time (JS.seconds_text now) block in
      let block :=
        Block.set_hash (Some (SHA256 (JSON_stringify block))) block in
      let self' := mkChain (chain0 ++ [block]) newBlockHeight in
      match validateChain self' with
      | Fulfilled validateErrors =>
          let p := Pending in
          let p :=
            if (0 <? List.length validateErrors)%nat
            then reject (StrList validateErrors) p else p in
          (resolve block p, self')
      | Rejected error => (reject error Pending, self')
      | Pending => (Pending, self')
      end
  end.

(** *** initializeChain and the constructor (lines 24-44) *)

Definition initializeChain (now : Z) (self : Blockchain) : Blockchain :=
  if height self =? -1 then
    let block := Block_new GenesisData in
    snd (_addBlock block now self)
  else self.

Definition constructor (now : Z) : Blockchain :=
  initializeChain now (mkChain [] (-1)).

(** *** getChainHeight (lines 49-53) *)
Definition getChainHeight (self : Blockchain) : Promise Z :=
  resolve (height self) Pending.

(** *** requestMessageOwnershipVerification (lines 123-134) *)
Definition requestMessageOwnershipVerification (address : string) (now : Z)
  : Promise string :=
  let message := address ++ ":" ++ JS.seconds_text now ++ ":starRegistry" in
  resolve message Pending.

(** *** submitStar (lines 153-191)

    [now] is the clock reading taken by [submitStar] itself and
    [appended_at] the later one taken by [_addBlock].  Neither [reject]
    is followed by a [return]: the executor goes on after each. *)
Definition expired_message : string :=
  "The signature is more than 5 minutes old so will not be used".

Definition invalid_message : string := "The message is not valid!".

Definition submitStar (address message signature star : string)
  (now appended_at : Z) (self : Blockchain) : Promise Block.t * Blockchain :=
  let p := Pending in
  let time := JS.parseInt_value (nth_error (JS.split ":" message) 1) in
  let currentTime := JS.parseInt (JS.seconds_text now) in
  let p :=
    if JS.gt (JS.sub currentTime time) 300
    then reject (Str expired_message) p else p in
  match verify message address signature with
  | Throw error => (reject error p, self)
  | Normal validMessage =>
      let p :=
        if negb validMessage then reject (Str invalid_message) p else p in
      let block := Block_new (StarData address message signature star) in
      let '(added, self') := _addBlock block appended_at self in
      match added with
      | Fulfilled createdBlock => (resolve createdBlock p, self')
      | Rejected error => (reject error p, self')
      | Pending => (p, self')
      end
  end.

(** *** getBlockByHash (lines 199-216) *)
Definition not_found_message : string := "Hash not found in current chain".

Definition getBlockByHash (hash : option string) (self : Blockchain)
  : Promise Block.t :=
  let p := Pending in
  let block :=
    find (fun block => strict_eq (Block.hash block) hash) (chain self) in
  let p :=
    match block with
    | Some found => resolve found p
    | None => p
    end in
  reject (Str not_found_message) p.

(** *** getBlockByHeight (lines 223-236): [None] is the [null] result *)
Definition getBlockByHeight (h : Z) (self : Blockchain)
  : Promise (option Block.t) :=
  let block := find (fun p => Block.height p =? h) (chain self) in
  match block with
  | Some found => resolve (Some found) Pending
  | None => resolve None Pending
  end.

(** *** getStarsByWalletAddress (lines 244-265)

    The call allocates one array, [stars], and fulfils its promise with
    that very array.  Each [forEach] callback is an [async] function: it
    evaluates [block.getBData()] and suspends at its [await]; the
    comparison and the [push] are in its continuation, which runs only
    after the executor has finished. *)
Record Star : Type := mkStar
  { owner : string;
    star : string }.

(** The array the promise and the callbacks share. *)
Inductive ArrayRef : Type := stars_array.

Record StarsCall : Type := mkStarsCall
  { (** the returned promise *)
    settled : Promise ArrayRef;
    (** the current contents of the array [stars] *)
    stars : list Star;
    (** the awaited payload of every suspended callback, in order *)
    suspended : list (option Data) }.

(** A callback up to its [await]. *)
Definition callback_start (block : Block.t) : option Data :=
  Block_getBData block.

(** A callback from its [await] on, acting on the shared array.  A payload
    without an [address] field compares unequal; a failed decoding makes
    the [await] throw, which ends this callback alone. *)
Definition callback_resume (address : string) (stars : list Star)
  (blockBody : option Data) : list Star :=
  match blockBody with
  | Some (StarData a _ _ st) =>
      if String.eqb a address then stars ++ [mkStar address st] else stars
  | Some GenesisData => stars
  | None => stars
  end.

Definition getStarsByWalletAddress (address : string) (self : Blockchain)
  : StarsCall :=
  let stars := [] in
  let suspended := map callback_start (chain self) in
  mkStarsCall (resolve stars_array Pending) stars suspended.

(** The same call once every suspended callback has been resumed. *)
Definition resume_all (address : string) (call : StarsCall) : StarsCall :=
  mkStarsCall (settled call)
              (fold_left (callback_resume address) (suspended call)
                         (stars call))
              [].

(** *** Ledgers built by the class itself

    A ledger is reachable when it is the one the constructor leaves, or
    results from a reachable one by a submission, by a further call of
    [initializeChain], or by appending a newly constructed block. *)
Inductive reachable : Blockchain -> Prop :=
| reach_empty : reachable (mkChain [] (-1))
| reach_constructor (now : Z) : reachable (constructor now)
| reach_initializeChain (now : Z) (self : Blockchain) :
    reachable self -> reachable (initializeChain now self)
| reach_submitStar (address message signature star : string)
    (now appended_at : Z) (self : Blockchain) :
    reachable self ->
    reachable
      (snd (submitStar address message signature star now appended_at self))
| reach_addBlock (data : Data) (now : Z) (self : Blockchain) :
    reachable self ->
    reachable (snd (_addBlock (Block_new data) now self)).

End Chain.

(** ** Predicates the properties are stated with *)

Section Predicates.

Context {C : Collaborators}.

Local Open Scope list_scope.

(** The ledger keeps [height] one below the length of [chain]. *)
Definition consistent (self : Blockchain) : Prop :=
  height self = Z.of_nat (List.length (chain self)) - 1.

(** The hash the new block is linked to: that of the last block, or what
    the block already carried when the chain is empty. *)
Definition link_of (block : Block.t) (self : Blockchain) : option string :=
  match rev (chain self) with
  | [] => Block.previousBlockHash block
  | lastBlock :: _ => Block.hash lastBlock
  end.

(** The record [_addBlock] builds from [block]. *)
Definition record_of (block : Block.t) (now : Z) (self : Blockchain)
  : Block.t :=
  let filled :=
    Block.mk (Block.hash block) (height self + 1) (Block.body block)
             (JS.seconds_text now) (link_of block self) in
  Block.set_hash (Some (SHA256 (JSON_stringify filled))) filled.

(** The stored hash is the digest of the record with its hash field
    blank. *)
Definition sealed (b : Block.t) : Prop :=
  Block.hash b = Some (SHA256 (JSON_stringify (Block.set_hash None b))).

(** Every record sits at its own height, is sealed, and carries the hash
    of the record before it ([null] for the first one). *)
Definition well_linked (l : list Block.t) : Prop :=
  forall i b,
    nth_error l i = Some b ->
    Block.height b = Z.of_nat i /\
    sealed b /\
    Block.previousBlockHash b =
      match i with
      | O => None
      | S j =>
          match nth_error l j with
          | Some p => Block.hash p
          | None => None
          end
      end.

Definition invariant (self : Blockchain) : Prop :=
  consistent self /\ well_linked (chain self).

(** No two different records of the ledger carry the same hash. *)
Definition collision_free (l : list Block.t) : Prop :=
  forall b1 b2,
    In b1 l -> In b2 l -> Block.hash b1 = Block.hash b2 -> b1 = b2.

(** What the validator asks of one block: its digest matches and, unless
    its height is 0, the first block of [all] carrying its predecessor
    hash is one height below. *)
Definition passes (all : list Block.t) (b : Block.t) : Prop :=
  Block_validate b = true /\
  (Block.height b = 0 \/
   exists p,
     find (fun previousBlock =>
             strict_eq (Block.hash previousBlock)
                       (Block.previousBlockHash b)) all = Some p /\
     Block.height p = Block.height b - 1).

(** The age of a message at clock reading [now], as [submitStar] computes
    it. *)
Definition elapsed (now : Z) (message : string) : JS.Num :=
  JS.sub (JS.parseInt (JS.seconds_text now))
         (JS.parseInt_value (nth_error (JS.split ":" message) 1)).

(** The collection the query is meant to return: one [{owner, star}] per
    record whose decoded payload carries the queried address, in ledger
    order; records whose payload has no address, or does not decode,
    contribute nothing. *)
Definition stars_of (address : string) (l : list Block.t) : list Star :=
  flat_map
    (fun b =>
       match Block_getBData b with
       | Some (StarData a _ _ st) =>
           if String.eqb a address then [mkStar address st] else []
       | _ => []
       end) l.

(** A decimal digit character. *)
Definition is_digit (c : ascii) : bool :=
  let n := nat_of_ascii c in ((48 <=? n) && (n <=? 57))%nat.

Fixpoint all_digits (s : string) : bool :=
  match s with
  | EmptyString => true
  | String c rest => is_digit c && all_digits rest
  end.

(** The character [sep] does not occur in [s]. *)
Fixpoint lacks (sep : ascii) (s : string) : bool :=
  match s with
  | EmptyString => true
  | String c rest => negb (Ascii.eqb c sep) && lacks sep rest
  end.

(** What the validator logs for one block whose digest matches. *)
Definition linkage_report (all : list Block.t) (block : Block.t)
  : list string :=
  if Block.height block =? 0 then []
  else
    match
      find (fun previousBlock =>
              strict_eq (Block.hash previousBlock)
                        (Block.previousBlockHash block)) all
    with
    | Some previousBlock =>
        if Block.height previousBlock =? Block.height block - 1 then []
        else [broken_message (Block.height block)]
    | None => [broken_message (Block.height block)]
    end.

(** A record the linkage check objects to: its height is not 0, and the
    first record of [all] carrying its predecessor hash, if there is one, is
    not one height below it. *)
Definition unlinked (all : list Block.t) (b : Block.t) : Prop :=
  Block.height b <> 0 /\
  match
    find (fun previousBlock =>
            strict_eq (Block.hash previousBlock)
                      (Block.previousBlockHash b)) all
  with
  | Some previousBlock => Block.height previousBlock <> Block.height b - 1
  | None => True
  end.

(** What a caller that awaits the promise of [getStarsByWalletAddress]
    receives.  Every callback reaches its [await] while [forEach] runs, so
    its continuation is queued before the call returns; the caller can
    attach its own reaction only afterwards, behind them in the queue.  By
    the time that reaction reads the array the promise was fulfilled with,
    all the continuations have run. *)
Definition await_stars (address : string) (self : Blockchain)
  : Promise (list Star) :=
  let call := getStarsByWalletAddress address self in
  match settled call with
  | Fulfilled stars_array => Fulfilled (stars (resume_all address call))
  | Rejected error => Rejected error
  | Pending => Pending
  end.

End Predicates.

(** ** A concrete set of collaborators, for evaluating the class *)

Module Sample.

Definition dq : string := String (ascii_of_nat 34) EmptyString.

Definition show_text (x : string) : string := dq ++ x ++ dq.

Definition show_nullable (x : option string) : string :=
  match x with
  | Some s => show_text s
  | None => "null"
  end.

(** A stand-in digest: the text itself behind a tag. *)
Definition sample_digest (text : string) : string := "sha:" ++ text.

(** The block printed field by field. *)
Definition sample_stringify (b : Block.t) : string :=
  "{hash:" ++ show_nullable (Block.hash b) ++
  ",height:" ++ JS.toString (Block.height b) ++
  ",body:" ++ show_text (Block.body b) ++
  ",time:" ++ show_text (Block.time b) ++
  ",previousBlockHash:" ++ show_nullable (Block.previousBlockHash b) ++ "}".

(** A stand-in verifier: the signature of [message] by [address] is the
    text [address/message]; an empty signature is malformed. *)
Definition sample_verify (message address signature : string)
  : Completion bool :=
  if String.eqb signature EmptyString
  then Throw (VerifierError "Invalid signature length")
  else Normal (String.eqb signature (address ++ "/" ++ message)).

Definition sample_encode (data : Data) : string :=
  match data with
  | GenesisData => "G"
  | StarData a m sg st => "S|" ++ a ++ "|" ++ m ++ "|" ++ sg ++ "|" ++ st
  end.

Definition sample_decode (text : string) : option Data :=
  match JS.split "|" text with
  | ["G"] => Some GenesisData
  | ["S"; a; m; sg; st] => Some (StarData a m sg st)
  | _ => None
  end.

#[export] Instance collaborators : Collaborators :=
  {| SHA256 := sample_digest;
     JSON_stringify := sample_stringify;
     verify := sample_verify;
     encode := sample_encode;
     decode := sample_decode |}.

(** The clock at construction, in milliseconds. *)
Definition t0 : Z := 1700000000000.

Definition ledger0 : Blockchain := constructor t0.

Definition message1 : string := "addr1:1700000000:starRegistry".

Definition signature1 : string := "addr1/" ++ message1.

(** A submission signed correctly, ten seconds after the message. *)
Definition star1 : Data := StarData "addr1" message1 signature1 "Vega".

Definition ledger1 : Blockchain :=
  snd (submitStar "addr1" message1 signature1 "Vega"
                  (t0 + 10000) (t0 + 10000) ledger0).

Definition genesis : Block.t := nth 0 (chain ledger1) (Block_new GenesisData).

Definition record1 : Block.t := nth 1 (chain ledger1) (Block_new GenesisData).

(** [ledger1] after the payload of its second record was overwritten, the
    stored hash left as it was. *)
Definition tampered_record : Block.t :=
  Block.mk (Block.hash record1) (Block.height record1)
           (sample_encode (StarData "addr1" message1 signature1 "Sirius"))
           (Block.time record1) (Block.previousBlockHash record1).

Definition tampered : Blockchain :=
  mkChain [genesis; tampered_record] (height ledger1).

(** [ledger1] after its second record was pointed at a hash no record has,
    and its own hash recomputed. *)
Definition relinked_record : Block.t :=
  let r :=
    Block.mk None (Block.height record1) (Block.body record1)
             (Block.time record1) (Some "0000") in
  Block.set_hash (Some (sample_digest (sample_stringify r))) r.

Definition relinked : Blockchain :=
  mkChain [genesis; relinked_record] (height ledger1).

Definition star2 : Data := StarData "addr2" "addr2:1700000015:starRegistry"
                                    "addr2/addr2:1700000015:starRegistry"
                                    "Altair".

(** A message with no colon in it. *)
Definition message_plain : string := "starRegistry".

(** [ledger1] with a second record that claims height 0 and points at a
    hash no record has, its own hash recomputed. *)
Definition stray_record : Block.t :=
  let r :=
    Block.mk None 0 (Block.body record1) (Block.time record1)
             (Some "0000") in
  Block.set_hash (Some (sample_digest (sample_stringify r))) r.

Definition stray : Blockchain :=
  mkChain [genesis; stray_record] (height ledger1).

(** The ledger of the constructor with its height field set off the end of
    the chain. *)
Definition skewed : Blockchain := mkChain (chain ledger0) 5.

End Sample.

(** ** Properties *)

Section Properties.

Context {C : Collaborators}.

Local Open Scope list_scope.

(** *** Strict equality *)

Lemma strict_eq_true (a b : option string) :
  strict_eq a b = true <-> a = b.
Proof.
  destruct a as [x|], b as [y|]; simpl; split; intro H;
    try discriminate; try reflexivity.
  - apply String.eqb_eq in H. now subst.
  - injection H as ->. apply String.eqb_refl.
Qed.

Lemma strict_eq_false (a b : option string) :
  strict_eq a b = false <-> a <> b.
Proof.
  split.
  - intros H E. apply strict_eq_true in E. congruence.
  - intro H. destruct (strict_eq a b) eqn:E; [|reflexivity].
    apply strict_eq_true in E. contradiction.
Qed.

(** *** What _addBlock appends *)

Lemma index_snoc {A} (l : list A) (x : A) :
  index (l ++ [x]) (Z.of_nat (List.length (l ++ [x])) - 1) = Some x.
Proof.
  unfold index. rewrite length_app. simpl List.length.
  replace (Z.of_nat (List.length l + 1) - 1)
    with (Z.of_nat (List.length l)) by lia.
  destruct (Z.ltb_spec (Z.of_nat (List.length l)) 0) as [H|_]; [lia|].
  rewrite Nat2Z.id, nth_error_app2 by lia.
  now rewrite Nat.sub_diag.
Qed.

(** On a consistent ledger the block is appended and the height moves up
    by one, whatever the validation that follows reports. *)
Lemma _addBlock_ledger (block : Block.t) (now : Z) (self : Blockchain) :
  consistent self ->
  snd (_addBlock block now self) =
  mkChain (chain self ++ [record_of block now self]) (height self + 1).
Proof.
  unfold consistent, _addBlock, record_of, link_of.
  destruct self as [l h]; simpl chain; simpl height. intros ->.
  destruct l as [|x l' _] using rev_ind.
  - simpl. destruct (validateChain _); reflexivity.
  - replace (0 <? List.length (l' ++ [x]))%nat with true
      by (rewrite length_app; simpl; symmetry; apply Nat.ltb_lt; lia).
    rewrite index_snoc, rev_app_distr. simpl rev. simpl app.
    destruct (validateChain _); reflexivity.
Qed.

Lemma _addBlock_consistent (block : Block.t) (now : Z) (self : Blockchain) :
  consistent self -> consistent (snd (_addBlock block now self)).
Proof.
  intro H. rewrite (_addBlock_ledger _ _ H). unfold consistent in *.
  simpl. rewrite length_app. simpl. lia.
Qed.

(** *** Invariants of the ledgers the class builds *)

Lemma sealed_validate (b : Block.t) :
  sealed b <-> Block_validate b = true.
Proof. unfold sealed, Block_validate. now rewrite strict_eq_true. Qed.

Lemma well_linked_nil : well_linked [].
Proof. intros [|i] b H; discriminate. Qed.

Lemma well_linked_snoc (data : Data) (now : Z) (self : Blockchain) :
  consistent self ->
  well_linked (chain self) ->
  well_linked (chain self ++ [record_of (Block_new data) now self]).
Proof.
  intros Hc Hw i b Hi.
  destruct (Nat.lt_ge_cases i (List.length (chain self))) as [Hlt|Hge].
  - rewrite nth_error_app1 in Hi by assumption.
    destruct (Hw i b Hi) as (Hh & Hs & Hp).
    repeat split; try assumption.
    destruct i as [|j]; [assumption|].
    rewrite nth_error_app1 by lia. assumption.
  - rewrite nth_error_app2 in Hi by assumption.
    destruct (i - List.length (chain self))%nat as [|k] eqn:Hk;
      [|destruct k; discriminate].
    injection Hi as <-.
    assert (i = List.length (chain self)) as -> by lia.
    repeat split.
    + unfold consistent in Hc. simpl. lia.
    + simpl. unfold link_of.
      destruct (chain self) as [|x l' _] using rev_ind; [reflexivity|].
      rewrite rev_app_distr, length_app. simpl rev. simpl app.
      replace (List.length l' + List.length [x])%nat
        with (S (List.length l')) by (simpl; lia).
      rewrite nth_error_app1 by (rewrite length_app; simpl; lia).
      rewrite nth_error_app2 by lia.
      now rewrite Nat.sub_diag.
Qed.

Lemma invariant_addBlock (data : Data) (now : Z) (self : Blockchain) :
  invariant self -> invariant (snd (_addBlock (Block_new data) now self)).
Proof.
  intros [Hc Hw]. split; [now apply _addBlock_consistent|].
  rewrite (_addBlock_ledger _ _ Hc). now apply well_linked_snoc.
Qed.

Lemma initializeChain_cases (now : Z) (self : Blockchain) :
  initializeChain now self = self \/
  initializeChain now self = snd (_addBlock (Block_new GenesisData) now self).
Proof.
  unfold initializeChain. destruct (height self =? -1); [now right|now left].
Qed.

(** A submission leaves the ledger alone only when the verifier throws;
    otherwise it appends the block built from its arguments, whether or
    not a rejection has already been issued. *)
Lemma submitStar_ledger (address message signature star : string)
  (now appended_at : Z) (self : Blockchain) :
  snd (submitStar address message signature star now appended_at self) =
  match verify message address signature with
  | Throw _ => self
  | Normal _ =>
      snd (_addBlock (Block_new (StarData address message signature star))
                     appended_at self)
  end.
Proof.
  unfold submitStar.
  destruct (verify message address signature) as [v|e]; [|reflexivity].
  destruct (_addBlock _ appended_at self) as [added self'].
  destruct added; reflexivity.
Qed.

Lemma reachable_invariant (self : Blockchain) :
  reachable self -> invariant self.
Proof.
  assert (He : invariant (mkChain [] (-1))).
  { split; [reflexivity|apply well_linked_nil]. }
  induction 1 as [|now|now self _ IH|a m sg st now at' self _ IH
                 |data now self _ IH].
  - exact He.
  - unfold constructor.
    destruct (initializeChain_cases now (mkChain [] (-1))) as [-> | ->];
      [exact He|now apply invariant_addBlock].
  - destruct (initializeChain_cases now self) as [-> | ->];
      [exact IH|now apply invariant_addBlock].
  - rewrite submitStar_ledger.
    destruct (verify m a sg); [now apply invariant_addBlock|exact IH].
  - now apply invariant_addBlock.
Qed.

(** *** The validator *)

Lemma validate_each_passes (all blocks : list Block.t)
  (errorLog : list string) :
  (forall b, In b blocks -> passes all b) ->
  validate_each all blocks errorLog = Normal errorLog.
Proof.
  induction blocks as [|b rest IH]; intro H; [reflexivity|].
  destruct (H b (or_introl eq_refl)) as [Hv Hl].
  assert (IH' := IH (fun x Hx => H x (or_intror Hx))).
  simpl. rewrite Hv. simpl.
  destruct Hl as [H0 | (p & Hf & Hp)].
  - rewrite H0. exact IH'.
  - destruct (Block.height b =? 0); [exact IH'|].
    rewrite Hf, Hp, Z.eqb_refl. exact IH'.
Qed.

(** The first block that fails [validate()] makes the callback throw;
    whatever was logged before is lost. *)
Lemma validate_each_throws (all blocks : list Block.t)
  (errorLog : list string) (b : Block.t) :
  In b blocks ->
  Block_validate b = false ->
  validate_each all blocks errorLog =
  Throw (ReferenceError "height is not defined").
Proof.
  revert errorLog.
  induction blocks as [|x rest IH]; intros errorLog Hin Hb; [destruct Hin|].
  simpl. destruct (Block_validate x) eqn:Hx; [|reflexivity].
  destruct Hin as [-> | Hin]; [congruence|].
  simpl. destruct (Block.height x =? 0); now apply IH.
Qed.

Lemma find_first_hash (l : list Block.t) (p : Block.t) :
  collision_free l ->
  In p l ->
  find (fun x => strict_eq (Block.hash x) (Block.hash p)) l = Some p.
Proof.
  intros Hcf Hin.
  destruct (find _ l) as [q|] eqn:Hf.
  - apply find_some in Hf as [Hq He].
    apply strict_eq_true in He. f_equal. now apply Hcf.
  - apply (find_none _ _ Hf) in Hin.
    apply strict_eq_false in Hin. now contradiction Hin.
Qed.

Lemma well_linked_passes (l : list Block.t) (b : Block.t) :
  well_linked l -> collision_free l -> In b l -> passes l b.
Proof.
  intros Hw Hcf Hin.
  destruct (In_nth_error _ _ Hin) as [i Hi].
  destruct (Hw i b Hi) as (Hh & Hs & Hp).
  split; [now apply sealed_validate|].
  destruct i as [|j]; [now left|right].
  destruct (nth_error l j) as [p|] eqn:Hj.
  - exists p. rewrite Hp. split.
    + apply find_first_hash; [assumption|now apply nth_error_In with j].
    + destruct (Hw j p Hj) as (Hhp & _). lia.
  - apply nth_error_None in Hj.
    assert (j < List.length l)%nat
      by (apply Nat.lt_trans with (S j);
          [lia|apply nth_error_Some; congruence]).
    lia.
Qed.

(** C4. A ledger built solely by the class's own appends (the genesis
    record first, then submitted records) passes validation:
    [validateChain] resolves with the empty list, provided the digest did
    not collide on the records of that ledger. *)
Theorem validateChain_reachable_empty (self : Blockchain) :
  reachable self ->
  collision_free (chain self) ->
  validateChain self = Fulfilled [].
Proof.
  intros Hr Hcf. destruct (reachable_invariant Hr) as [_ Hw].
  unfold validateChain.
  rewrite validate_each_passes; [reflexivity|].
  intros b Hb. now apply well_linked_passes.
Qed.

(** A digest that is injective on serialised records never collides on a
    well-linked ledger. *)
Lemma injective_digest_collision_free (l : list Block.t) :
  (forall b1 b2 : Block.t,
      SHA256 (JSON_stringify b1) = SHA256 (JSON_stringify b2) -> b1 = b2) ->
  well_linked l -> collision_free l.
Proof.
  intros Hinj Hw b1 b2 H1 H2 Heq.
  destruct (In_nth_error _ _ H1) as [i Hi], (In_nth_error _ _ H2) as [j Hj].
  destruct (Hw i b1 Hi) as (_ & Hs1 & _), (Hw j b2 Hj) as (_ & Hs2 & _).
  unfold sealed in Hs1, Hs2.
  assert (Hb : Block.set_hash None b1 = Block.set_hash None b2)
    by (apply Hinj; congruence).
  destruct b1, b2. unfold Block.set_hash in Hb. simpl in *. congruence.
Qed.

(** C2. The claim asks [validateChain] to resolve with a list naming the
    tampered record.  What the code does instead: as soon as a record of
    the ledger no longer matches its stored hash, the promise is rejected
    with a [ReferenceError], because the message for that record reads the
    unbound variable [height]. *)
Theorem validateChain_tampered_rejects (self : Blockchain) (b : Block.t) :
  In b (chain self) ->
  Block_validate b = false ->
  validateChain self = Rejected (ReferenceError "height is not defined").
Proof.
  intros Hin Hb. unfold validateChain.
  now rewrite (validate_each_throws _ _ _ _ Hin Hb).
Qed.

(** C5. Every ledger the append path reaches is linked: the first record
    has height 0 and no predecessor hash, and each later record is one
    height above the record before it and carries that record's hash. *)
Theorem reachable_linkage (self : Blockchain) :
  reachable self ->
  (forall b,
      nth_error (chain self) 0 = Some b ->
      Block.height b = 0 /\ Block.previousBlockHash b = None) /\
  (forall i p b,
      nth_error (chain self) i = Some p ->
      nth_error (chain self) (S i) = Some b ->
      Block.height b = Block.height p + 1 /\
      Block.previousBlockHash b = Block.hash p).
Proof.
  intro Hr. destruct (reachable_invariant Hr) as [_ Hw]. split.
  - intros b Hb. destruct (Hw 0%nat b Hb) as (Hh & _ & Hp). now split.
  - intros i p b Hp Hb.
    destruct (Hw i p Hp) as (Hhp & _), (Hw (S i) b Hb) as (Hhb & _ & Hl).
    rewrite Hp in Hl. split; [lia|assumption].
Qed.

(** *** Appending *)

(** C6. The record an append creates stores the digest of its own content
    as finally populated (height, timestamp, predecessor hash, payload)
    with the hash field blank; the height is one above the ledger's, the
    timestamp is the clock reading in seconds, the payload is the encoded
    draft and the predecessor hash is that of the last record. *)
Theorem appended_hash_is_content_digest (data : Data) (now : Z)
  (self : Blockchain) (b : Block.t) :
  chain (snd (_addBlock (Block_new data) now self)) = chain self ++ [b] ->
  Block.hash b =
    Some (SHA256 (JSON_stringify
                    (Block.mk None (Block.height b) (Block.body b)
                              (Block.time b) (Block.previousBlockHash b)))) /\
  Block.height b = height self + 1 /\
  Block.time b = JS.seconds_text now /\
  Block.body b = encode data /\
  Block.previousBlockHash b =
    match chain self with
    | [] => None
    | _ :: _ =>
        match index (chain self) (height self) with
        | Some lastBlock => Block.hash lastBlock
        | None => None
        end
    end.
Proof.
  unfold _addBlock.
  destruct (chain self) as [|x l] eqn:Hl.
  - simpl.
    destruct (validateChain _); simpl; intro H; injection H as <-;
      repeat split.
  - replace (0 <? List.length (x :: l))%nat with true by reflexivity.
    destruct (index (x :: l) (height self)) as [lastBlock|].
    + destruct (validateChain _); cbn [snd chain]; intro H;
        apply app_inv_head in H; injection H as <-; repeat split.
    + simpl snd. rewrite Hl. intro H.
      apply (f_equal (@List.length _)) in H.
      rewrite length_app in H. simpl in H. lia.
Qed.

(** C3, as the code has it.  Once the record is appended, the call
    resolves with it exactly when the validation that follows reports
    nothing; a non-empty report is what the call is rejected with, and a
    validation that itself fails passes its error on.  The record stays in
    the ledger in every case. *)
Theorem _addBlock_outcome (block : Block.t) (now : Z) (self : Blockchain)
  (b : Block.t) :
  chain (snd (_addBlock block now self)) = chain self ++ [b] ->
  fst (_addBlock block now self) =
  match validateChain (snd (_addBlock block now self)) with
  | Fulfilled [] => Fulfilled b
  | Fulfilled (e :: errs) => Rejected (StrList (e :: errs))
  | Rejected error => Rejected error
  | Pending => Pending
  end.
Proof.
  unfold _addBlock.
  set (linked := if (0 <? List.length (chain self))%nat then _ else _).
  destruct linked as [block'|error].
  - set (sealed_block := Block.set_hash _ _).
    set (self' := mkChain _ _).
    destruct (validateChain self') as [|errs|error] eqn:Hv;
      cbn [snd]; rewrite Hv; cbn [chain self']; intro H;
      apply app_inv_head in H; injection H as <-;
      [reflexivity|destruct errs; reflexivity|reflexivity].
  - simpl snd. intro H. apply (f_equal (@List.length _)) in H.
    rewrite length_app in H. simpl in H. lia.
Qed.

(** *** Submitting *)

(** C7. A submission whose message carries a timestamp more than 300
    seconds behind the clock is rejected with the expiry message, whatever
    the verifier answers (true, false or an error) and whatever the append
    that follows does: the staleness check comes first and its rejection
    stands. *)
Theorem submitStar_expired (address message signature star : string)
  (now appended_at : Z) (self : Blockchain) (t c : Z) :
  JS.parseInt_value (nth_error (JS.split ":" message) 1) = Some t ->
  JS.parseInt (JS.seconds_text now) = Some c ->
  c - t > 300 ->
  fst (submitStar address message signature star now appended_at self) =
  Rejected (Str expired_message).
Proof.
  intros Ht Hc Hgt. unfold submitStar. rewrite Ht, Hc. simpl JS.sub.
  unfold JS.gt. replace (300 <? c - t) with true
    by (symmetry; apply Z.ltb_lt; lia).
  simpl reject.
  destruct (verify message address signature) as [v|e]; [|reflexivity].
  destruct (_addBlock _ appended_at self) as [added self'].
  destruct v, added; reflexivity.
Qed.

(** C1. The claim asks that a submission failing the staleness or the
    signature check leave the ledger as it was.  What the code does
    instead: whenever the verifier returns at all, the call is rejected
    and the record is appended all the same, the height moving up by
    one. *)
Theorem submitStar_failed_check_appends
  (address message signature star : string) (now appended_at : Z)
  (self : Blockchain) (valid : bool) :
  consistent self ->
  verify message address signature = Normal valid ->
  JS.gt (elapsed now message) 300 = true \/ valid = false ->
  (fst (submitStar address message signature star now appended_at self) =
     Rejected (Str expired_message) \/
   fst (submitStar address message signature star now appended_at self) =
     Rejected (Str invalid_message)) /\
  exists b,
    Block.body b = encode (StarData address message signature star) /\
    snd (submitStar address message signature star now appended_at self) =
    mkChain (chain self ++ [b]) (height self + 1).
Proof.
  intros Hc Hv Hfail. split.
  - unfold submitStar. fold (elapsed now message). rewrite Hv.
    destruct (_addBlock _ appended_at self) as [added self'].
    destruct (JS.gt (elapsed now message) 300).
    + left. destruct valid, added; reflexivity.
    + right. destruct Hfail as [Hf | ->]; [discriminate|].
      destruct added; reflexivity.
  - rewrite submitStar_ledger, Hv, (_addBlock_ledger _ _ Hc).
    eexists. split; [|reflexivity]. reflexivity.
Qed.

(** C10. When the second colon-separated field of the message does not
    parse as an integer, the staleness check does not fire at any clock
    reading: a signature the verifier refuses is rejected as invalid, and
    one it accepts gets its record appended, the call ending as the append
    ends. *)
Theorem submitStar_unparsed_timestamp
  (address message signature star : string) (now appended_at : Z)
  (self : Blockchain) :
  JS.parseInt_value (nth_error (JS.split ":" message) 1) = JS.NaN ->
  consistent self ->
  (verify message address signature = Normal false ->
   fst (submitStar address message signature star now appended_at self) =
   Rejected (Str invalid_message)) /\
  (verify message address signature = Normal true ->
   fst (submitStar address message signature star now appended_at self) =
   fst (_addBlock (Block_new (StarData address message signature star))
                  appended_at self) /\
   exists b,
     Block.body b = encode (StarData address message signature star) /\
     snd (submitStar address message signature star now appended_at self) =
     mkChain (chain self ++ [b]) (height self + 1)).
Proof.
  intros Ht Hc.
  assert (Hfresh : JS.gt (elapsed now message) 300 = false).
  { unfold elapsed. rewrite Ht.
    now destruct (JS.parseInt (JS.seconds_text now)). }
  split; intro Hv.
  - unfold submitStar. fold (elapsed now message). rewrite Hfresh, Hv.
    destruct (_addBlock _ appended_at self) as [added self'].
    destruct added; reflexivity.
  - split.
    + unfold submitStar. fold (elapsed now message). rewrite Hfresh, Hv.
      destruct (_addBlock _ appended_at self) as [added self'].
      destruct added; reflexivity.
    + rewrite submitStar_ledger, Hv, (_addBlock_ledger _ _ Hc).
      eexists. split; [|reflexivity]. reflexivity.
Qed.

(** *** Queries *)

Lemma find_first {A} (f : A -> bool) (l : list A) (x : A) :
  find f l = Some x ->
  exists i,
    nth_error l i = Some x /\ f x = true /\
    forall j y, (j < i)%nat -> nth_error l j = Some y -> f y = false.
Proof.
  induction l as [|a l IH]; [discriminate|].
  simpl. destruct (f a) eqn:Ha.
  - intro H. injection H as <-. exists 0%nat.
    repeat split; [assumption|]. intros j y Hj. lia.
  - intro H. destruct (IH H) as (i & Hi & Hx & Hbefore).
    exists (S i). repeat split; [assumption..|].
    intros [|j] y Hj Hy.
    + simpl in Hy. injection Hy as <-. assumption.
    + apply (Hbefore j); [lia|assumption].
Qed.

(** C8. [getBlockByHash h] either resolves with the first record of the
    sequence whose stored hash is [h] (no record before it has that hash),
    or no record has that hash and the call is rejected with the not-found
    message. *)
Theorem getBlockByHash_first_or_not_found (h : option string)
  (self : Blockchain) :
  (exists i b,
      nth_error (chain self) i = Some b /\
      Block.hash b = h /\
      (forall j b', (j < i)%nat ->
                    nth_error (chain self) j = Some b' ->
                    Block.hash b' <> h) /\
      getBlockByHash h self = Fulfilled b) \/
  ((forall b, In b (chain self) -> Block.hash b <> h) /\
   getBlockByHash h self = Rejected (Str not_found_message)).
Proof.
  unfold getBlockByHash.
  destruct (find _ (chain self)) as [b|] eqn:Hf.
  - left. destruct (find_first _ _ Hf) as (i & Hi & Hb & Hbefore).
    exists i, b. repeat split; [assumption|now apply strict_eq_true|].
    intros j b' Hj Hb'. apply strict_eq_false. now apply (Hbefore j).
  - right. split; [|reflexivity].
    intros b Hb. apply strict_eq_false. now apply (find_none _ _ Hf).
Qed.

(** When the call returns, its promise is already fulfilled with the
    array, the array is empty, and one callback per record is still
    waiting. *)
Lemma getStars_resolves_before_push (address : string) (self : Blockchain) :
  settled (getStarsByWalletAddress address self) = Fulfilled stars_array /\
  stars (getStarsByWalletAddress address self) = [] /\
  List.length (suspended (getStarsByWalletAddress address self)) =
  List.length (chain self).
Proof. repeat split. apply length_map. Qed.

Lemma fold_callbacks (address : string) (l : list Block.t)
  (acc : list Star) :
  fold_left (callback_resume address) (map callback_start l) acc =
  acc ++ stars_of address l.
Proof.
  revert acc. induction l as [|b l IH]; intro acc.
  - simpl. now rewrite app_nil_r.
  - simpl. rewrite IH. unfold callback_start, callback_resume.
    destruct (Block_getBData b) as [[|a m sg st]|]; try reflexivity.
    destruct (String.eqb a address); [|reflexivity].
    now rewrite <- app_assoc.
Qed.

(** Only once every waiting callback has run does the shared array hold
    the matching stars. *)
Lemma resume_all_stars (address : string) (self : Blockchain) :
  stars (resume_all address (getStarsByWalletAddress address self)) =
  stars_of address (chain self).
Proof. unfold resume_all. simpl. apply fold_callbacks. Qed.

Lemma stars_of_In (address : string) (l : list Block.t) (entry : Star) :
  In entry (stars_of address l) <->
  owner entry = address /\
  exists b message signature,
    In b l /\
    Block_getBData b =
      Some (StarData address message signature (star entry)).
Proof.
  unfold stars_of. rewrite in_flat_map. split.
  - intros (b & Hb & He).
    destruct (Block_getBData b) as [[|a m sg st]|] eqn:Hd;
      try (destruct He; fail).
    destruct (String.eqb_spec a address) as [->|Hn]; [|destruct He].
    destruct He as [<-|[]]. split; [reflexivity|].
    exists b, m, sg. split; [exact Hb|exact Hd].
  - intros (Ho & b & m & sg & Hb & Hd). exists b. split; [exact Hb|].
    rewrite Hd, String.eqb_refl. left.
    destruct entry as [o st]. simpl in *. now subst o.
Qed.

Lemma stars_of_no_match (address : string) (l : list Block.t) :
  (forall b a message signature st,
      In b l ->
      Block_getBData b = Some (StarData a message signature st) ->
      a <> address) ->
  stars_of address l = [].
Proof.
  intro H. destruct (stars_of address l) as [|entry rest] eqn:E;
    [reflexivity|exfalso].
  assert (Hin : In entry (stars_of address l)) by (rewrite E; now left).
  apply stars_of_In in Hin as (_ & b & m & sg & Hb & Hd).
  now apply (H b address m sg (star entry) Hb Hd).
Qed.

(** C9. For every address and every ledger, the caller of
    [getStarsByWalletAddress] receives exactly the [{owner, star}] pairs of
    the records whose decoded payload carries the queried address, one per
    such record and in ledger order: each entry has the address as owner and
    the star of such a record, every such record has its entry, records
    whose payload has no address (the genesis record) or does not decode
    contribute nothing, and the collection is empty when no record
    matches. *)
Theorem getStarsByWalletAddress_returns_matching (address : string)
  (self : Blockchain) :
  exists received,
    await_stars address self = Fulfilled received /\
    received = stars_of address (chain self) /\
    (forall entry,
        In entry received <->
        owner entry = address /\
        exists b message signature,
          In b (chain self) /\
          Block_getBData b =
            Some (StarData address message signature (star entry))) /\
    ((forall b a message signature st,
         In b (chain self) ->
         Block_getBData b = Some (StarData a message signature st) ->
         a <> address) ->
     received = []).
Proof.
  exists (stars_of address (chain self)). split; [|split; [reflexivity|split]].
  - unfold await_stars. cbn [settled getStarsByWalletAddress resolve].
    now rewrite <- resume_all_stars.
  - intro entry. apply stars_of_In.
  - apply stars_of_no_match.
Qed.

End Properties.

(** ** The properties at work on the sample ledgers *)

Section SampleFacts.

Import Sample.

Local Open Scope list_scope.

Lemma ledger1_reachable : reachable ledger1.
Proof. unfold ledger1, ledger0. apply reach_submitStar, reach_constructor. Qed.

Lemma ledger1_chain : chain ledger1 = [genesis; record1].
Proof. reflexivity. Qed.

Lemma ledger1_collision_free : collision_free (chain ledger1).
Proof.
  rewrite ledger1_chain. intros b1 b2 H1 H2 He.
  destruct H1 as [<-|[<-|[]]], H2 as [<-|[<-|[]]];
    try reflexivity; vm_compute in He; discriminate He.
Qed.

Lemma ledger0_append_star1 :
  chain (snd (_addBlock (Block_new star1) (t0 + 10000) ledger0)) =
  chain ledger0 ++ [record1].
Proof. reflexivity. Qed.

(** The C1 scenario: the message of [ledger1] is submitted again 400 seconds
    after it was issued, correctly signed; the call is rejected as expired
    and the ledger has grown all the same. *)
Lemma submitStar_failed_check_appends_witness :
  consistent ledger1 /\
  verify message1 "addr1" signature1 = Normal true /\
  JS.gt (elapsed (t0 + 400000) message1) 300 = true /\
  (fst (submitStar "addr1" message1 signature1 "Vega"
                   (t0 + 400000) (t0 + 400000) ledger1) =
     Rejected (Str expired_message) \/
   fst (submitStar "addr1" message1 signature1 "Vega"
                   (t0 + 400000) (t0 + 400000) ledger1) =
     Rejected (Str invalid_message)) /\
  exists b,
    Block.body b = encode (StarData "addr1" message1 signature1 "Vega") /\
    snd (submitStar "addr1" message1 signature1 "Vega"
                    (t0 + 400000) (t0 + 400000) ledger1) =
    mkChain (chain ledger1 ++ [b]) (height ledger1 + 1).
Proof.
  assert (Hc : consistent ledger1) by reflexivity.
  assert (Hv : verify message1 "addr1" signature1 = Normal true)
    by reflexivity.
  assert (Hs : JS.gt (elapsed (t0 + 400000) message1) 300 = true)
    by reflexivity.
  exact (conj Hc (conj Hv (conj Hs
           (@submitStar_failed_check_appends
              _ "addr1" message1 signature1 "Vega" (t0 + 400000)
              (t0 + 400000) ledger1 true Hc Hv (or_introl Hs))))).
Defined.

(** The C2 scenario: the second record of [tampered] no longer matches its
    stored hash, and validation is rejected instead of reporting it. *)
Lemma validateChain_tampered_rejects_witness :
  In tampered_record (chain tampered) /\
  Block_validate tampered_record = false /\
  validateChain tampered = Rejected (ReferenceError "height is not defined").
Proof.
  assert (Hin : In tampered_record (chain tampered))
    by (right; left; reflexivity).
  assert (Hb : Block_validate tampered_record = false) by reflexivity.
  exact (conj Hin (conj Hb
           (@validateChain_tampered_rejects
              _ tampered tampered_record Hin Hb))).
Defined.

(** C3 refuted as stated: appending to [relinked] commits the record, the
    validation that follows yields a non-empty list, and the call is
    rejected with that list instead of returning the record. *)
Lemma _addBlock_rejects_with_report :
  exists b errs,
    chain (snd (_addBlock (Block_new star2) (t0 + 20000) relinked)) =
      chain relinked ++ [b] /\
    validateChain (snd (_addBlock (Block_new star2) (t0 + 20000) relinked)) =
      Fulfilled errs /\
    errs <> [] /\
    fst (_addBlock (Block_new star2) (t0 + 20000) relinked) =
      Rejected (StrList errs) /\
    fst (_addBlock (Block_new star2) (t0 + 20000) relinked) <> Fulfilled b.
Proof.
  exists (record_of (Block_new star2) (t0 + 20000) relinked),
         [broken_message 1].
  repeat split; try reflexivity; discriminate.
Qed.

Lemma _addBlock_outcome_witness :
  chain (snd (_addBlock (Block_new star1) (t0 + 10000) ledger0)) =
    chain ledger0 ++ [record1] /\
  fst (_addBlock (Block_new star1) (t0 + 10000) ledger0) =
    match
      validateChain (snd (_addBlock (Block_new star1) (t0 + 10000) ledger0))
    with
    | Fulfilled [] => Fulfilled record1
    | Fulfilled (e :: errs) => Rejected (StrList (e :: errs))
    | Rejected error => Rejected error
    | Pending => Pending
    end.
Proof.
  split; [exact ledger0_append_star1|].
  exact (@_addBlock_outcome _ (Block_new star1) (t0 + 10000) ledger0
                            record1 ledger0_append_star1).
Defined.

Lemma validateChain_reachable_empty_witness :
  reachable ledger1 /\
  collision_free (chain ledger1) /\
  validateChain ledger1 = Fulfilled [].
Proof.
  exact (conj ledger1_reachable (conj ledger1_collision_free
           (@validateChain_reachable_empty
              _ ledger1 ledger1_reachable ledger1_collision_free))).
Defined.

Lemma reachable_linkage_witness :
  reachable ledger1 /\
  (forall b,
      nth_error (chain ledger1) 0 = Some b ->
      Block.height b = 0 /\ Block.previousBlockHash b = None) /\
  (forall i p b,
      nth_error (chain ledger1) i = Some p ->
      nth_error (chain ledger1) (S i) = Some b ->
      Block.height b = Block.height p + 1 /\
      Block.previousBlockHash b = Block.hash p).
Proof.
  split; [exact ledger1_reachable|].
  exact (@reachable_linkage _ ledger1 ledger1_reachable).
Defined.

Lemma appended_hash_is_content_digest_witness :
  chain (snd (_addBlock (Block_new star1) (t0 + 10000) ledger0)) =
    chain ledger0 ++ [record1] /\
  Block.hash record1 =
    Some (SHA256 (JSON_stringify
                    (Block.mk None 1 (encode star1) "1700000010"
                              (Block.hash genesis)))).
Proof.
  exact (conj ledger0_append_star1
           (proj1 (@appended_hash_is_content_digest
                     _ star1 (t0 + 10000) ledger0 record1
                     ledger0_append_star1))).
Defined.

Lemma submitStar_expired_witness :
  JS.parseInt_value (nth_error (JS.split ":" message1) 1) = Some 1700000000 /\
  JS.parseInt (JS.seconds_text (t0 + 400000)) = Some 1700000400 /\
  1700000400 - 1700000000 > 300 /\
  fst (submitStar "addr1" message1 signature1 "Vega"
                  (t0 + 400000) (t0 + 400000) ledger1) =
  Rejected (Str expired_message).
Proof.
  assert (Ht : JS.parseInt_value (nth_error (JS.split ":" message1) 1) =
               Some 1700000000) by reflexivity.
  assert (Hc : JS.parseInt (JS.seconds_text (t0 + 400000)) = Some 1700000400)
    by reflexivity.
  assert (Hgt : 1700000400 - 1700000000 > 300) by lia.
  exact (conj Ht (conj Hc (conj Hgt
           (@submitStar_expired _ "addr1" message1 signature1 "Vega"
                                (t0 + 400000) (t0 + 400000) ledger1
                                1700000000 1700000400 Ht Hc Hgt)))).
Defined.

Lemma submitStar_unparsed_timestamp_witness :
  JS.parseInt_value (nth_error (JS.split ":" message_plain) 1) = JS.NaN /\
  consistent ledger1 /\
  verify message_plain "addr2" "addr2/starRegistry" = Normal true /\
  exists b,
    Block.body b =
      encode (StarData "addr2" message_plain "addr2/starRegistry" "Altair") /\
    snd (submitStar "addr2" message_plain "addr2/starRegistry" "Altair"
                    (t0 + 86400000) (t0 + 86400000) ledger1) =
    mkChain (chain ledger1 ++ [b]) (height ledger1 + 1).
Proof.
  assert (Ht : JS.parseInt_value (nth_error (JS.split ":" message_plain) 1) =
               JS.NaN) by reflexivity.
  assert (Hc : consistent ledger1) by reflexivity.
  assert (Hv : verify message_plain "addr2" "addr2/starRegistry" =
               Normal true) by reflexivity.
  exact (conj Ht (conj Hc (conj Hv
           (proj2 (proj2 (@submitStar_unparsed_timestamp
                            _ "addr2" message_plain "addr2/starRegistry"
                            "Altair" (t0 + 86400000) (t0 + 86400000)
                            ledger1 Ht Hc)
                         Hv))))).
Defined.

(** The C9 scenario: on [ledger1], which holds one star of [addr1], the
    caller receives that star. *)
Lemma getStarsByWalletAddress_returns_matching_witness :
  exists received,
    await_stars "addr1" ledger1 = Fulfilled received /\
    received = [mkStar "addr1" "Vega"].
Proof.
  destruct (@getStarsByWalletAddress_returns_matching _ "addr1" ledger1)
    as (received & Ha & Hr & _).
  exists received. split; [exact Ha|]. rewrite Hr. reflexivity.
Defined.

End SampleFacts.

(** ** Text and numbers: what the string primitives compute *)

Section Text.

Lemma is_digit_cases (c : ascii) :
  is_digit c = true ->
  c = "0"%char \/ c = "1"%char \/ c = "2"%char \/ c = "3"%char \/
  c = "4"%char \/ c = "5"%char \/ c = "6"%char \/ c = "7"%char \/
  c = "8"%char \/ c = "9"%char.
Proof.
  destruct c as [[] [] [] [] [] [] [] []]; vm_compute; intro H;
    try discriminate H; tauto.
Qed.

Lemma is_digit_value (c : ascii) :
  is_digit c = true ->
  exists d, JS.digitValue 10 c = Some d /\ 0 <= d <= 9.
Proof.
  intro H. apply is_digit_cases in H.
  repeat (destruct H as [-> | H]); [..|subst c];
    eexists; (split; [vm_compute; reflexivity|lia]).
Qed.

Lemma digits_value (s : string) :
  all_digits s = true ->
  exists v,
    0 <= v < 10 ^ Z.of_nat (String.length s) /\
    forall a, JS.digits 10 s (Some a) =
              Some (a * 10 ^ Z.of_nat (String.length s) + v).
Proof.
  induction s as [|c s IH]; simpl all_digits; intro H.
  - exists 0. split; [simpl; lia|]. intro a. simpl. f_equal. lia.
  - apply andb_prop in H as [Hc Hs].
    destruct (is_digit_value _ Hc) as (d & Hd & Hr).
    destruct (IH Hs) as (v & Hv & Hf).
    exists (d * 10 ^ Z.of_nat (String.length s) + v).
    simpl String.length. rewrite Nat2Z.inj_succ, Z.pow_succ_r by lia.
    split; [nia|].
    intro a. cbn [JS.digits]. rewrite Hd, Hf. f_equal. ring.
Qed.

Lemma digits_from_none (s : string) :
  all_digits s = true -> s <> EmptyString ->
  JS.digits 10 s None = JS.digits 10 s (Some 0).
Proof.
  destruct s as [|c s]; [congruence|]. simpl all_digits. intros H _.
  apply andb_prop in H as [Hc _].
  destruct (is_digit_value _ Hc) as (d & Hd & _).
  cbn [JS.digits]. rewrite Hd. reflexivity.
Qed.

Lemma digits_app (s1 s2 : string) (acc : option Z) :
  all_digits s1 = true ->
  JS.digits 10 (s1 ++ s2) acc = JS.digits 10 s2 (JS.digits 10 s1 acc).
Proof.
  revert acc. induction s1 as [|c s1 IH]; intros acc H; [reflexivity|].
  simpl all_digits in H. apply andb_prop in H as [Hc Hs].
  destruct (is_digit_value _ Hc) as (d & Hd & _).
  simpl append. cbn [JS.digits]. rewrite Hd. now apply IH.
Qed.

(** Closes the parsing goal once the leading characters are known. *)
Ltac reduce_parse :=
  repeat match goal with
         | |- context [JS.isWhiteSpace ?c] =>
             change (JS.isWhiteSpace c) with false
         end;
  cbv beta iota zeta;
  match goal with
  | |- match ?x with Some _ => _ | None => _ end = ?x =>
      destruct x; [f_equal; lia|reflexivity]
  end.

Lemma parseInt_digits (s : string) :
  all_digits s = true -> JS.parseInt s = JS.digits 10 s None.
Proof.
  destruct s as [|c s]; [reflexivity|]. simpl all_digits. intro H.
  apply andb_prop in H as [Hc Hs]. apply is_digit_cases in Hc.
  unfold JS.parseInt. cbn [JS.trimStart].
  destruct Hc as [-> | Hc].
  - destruct s as [|c' s]; [reflexivity|].
    simpl all_digits in Hs. apply andb_prop in Hs as [Hc' _].
    apply is_digit_cases in Hc'.
    repeat (destruct Hc' as [-> | Hc']); [..|subst c']; reduce_parse.
  - repeat (destruct Hc as [-> | Hc]); [..|subst c]; reduce_parse.
Qed.

Lemma uint_all_digits (d : Decimal.uint) :
  all_digits (NilEmpty.string_of_uint d) = true.
Proof. induction d; simpl; auto. Qed.

Lemma digits_uint_acc (d : Decimal.uint) (a : positive) :
  JS.digits 10 (NilEmpty.string_of_uint d) (Some (Zpos a)) =
  Some (Zpos (Pos.of_uint_acc d a)).
Proof.
  revert a.
  induction d; intro a; [reflexivity|..];
    cbn [NilEmpty.string_of_uint JS.digits Pos.of_uint_acc];
    match goal with
    | |- context [JS.digitValue 10 ?c] =>
        let v := eval vm_compute in (JS.digitValue 10 c) in
        change (JS.digitValue 10 c) with v
    end;
    cbv iota; rewrite <- IHd; do 2 f_equal; lia.
Qed.

Lemma digits_uint (d : Decimal.uint) :
  JS.digits 10 (NilEmpty.string_of_uint d) (Some 0) =
  Some (Z.of_N (Pos.of_uint d)).
Proof.
  induction d; [reflexivity|..];
    cbn [NilEmpty.string_of_uint JS.digits Pos.of_uint];
    match goal with
    | |- context [JS.digitValue 10 ?c] =>
        let v := eval vm_compute in (JS.digitValue 10 c) in
        change (JS.digitValue 10 c) with v
    end;
    cbv iota; [exact IHd|..];
    change (0 * 10 + ?k) with k; apply digits_uint_acc.
Qed.

Lemma toString_pos (p : positive) :
  JS.toString (Zpos p) = NilEmpty.string_of_uint (Pos.to_uint p).
Proof.
  unfold JS.toString. simpl. unfold NilZero.string_of_uint.
  destruct (Pos.to_uint p) eqn:E; try reflexivity.
  now apply DecimalPos.Unsigned.to_uint_nonnil in E.
Qed.

Lemma toString_digits (n : Z) :
  0 <= n ->
  all_digits (JS.toString n) = true /\
  JS.digits 10 (JS.toString n) None = Some n.
Proof.
  intro H. destruct n as [|p|p]; [split; reflexivity| |lia].
  rewrite toString_pos. split; [apply uint_all_digits|].
  rewrite digits_from_none.
  - rewrite digits_uint, DecimalPos.Unsigned.of_to. reflexivity.
  - apply uint_all_digits.
  - intro E. apply (DecimalPos.Unsigned.to_uint_nonnil p).
    destruct (Pos.to_uint p); [reflexivity|discriminate E..].
Qed.

(** Printing an integer and parsing it back gives the integer. *)
Lemma parseInt_toString (n : Z) : JS.parseInt (JS.toString n) = Some n.
Proof.
  destruct (Z.le_gt_cases 0 n) as [H|H].
  - destruct (toString_digits H) as [Ha Hd].
    now rewrite parseInt_digits.
  - destruct n as [|p|p]; try lia.
    assert (Hs : JS.toString (Zneg p) = String "-" (JS.toString (Zpos p))).
    { unfold JS.toString. reflexivity. }
    destruct (toString_digits (Pos2Z.is_nonneg p)) as [Ha Hd].
    rewrite Hs. generalize (parseInt_digits _ Ha). rewrite Hd.
    unfold JS.parseInt. cbn [JS.trimStart].
    change (JS.isWhiteSpace "-") with false. cbv iota.
    destruct (JS.toString (Zpos p)) as [|c s] eqn:E; [discriminate Hd|].
    simpl all_digits in Ha. apply andb_prop in Ha as [Hc _].
    destruct (is_digit_value _ Hc) as (d & Hdv & _).
    assert (Hw : JS.isWhiteSpace c = false).
    { apply is_digit_cases in Hc.
      repeat (destruct Hc as [-> | Hc]); [..|subst c]; reflexivity. }
    cbn [JS.trimStart]. rewrite Hw.
    assert (Hsign :
      match String c s with
      | String "+"%char rest => (1, rest)
      | String "-"%char rest => (-1, rest)
      | _ => (1, String c s)
      end = (1, String c s)).
    { apply is_digit_cases in Hc.
      repeat (destruct Hc as [-> | Hc]); [..|subst c]; reflexivity. }
    rewrite Hsign. cbv beta iota zeta.
    destruct (match String c s with
              | String "0"%char (String "x"%char rest)
              | String "0"%char (String "X"%char rest) => (16, rest)
              | _ => (10, String c s)
              end) as [radix s3].
    destruct (JS.digits radix s3 None) as [m|]; [|discriminate].
    intro Hm. assert (1 * m = Z.pos p) by congruence. f_equal. lia.
Qed.

Lemma append_nil_r (s : string) : s ++ EmptyString = s.
Proof. induction s; simpl; congruence. Qed.

Lemma append_assoc (a b c : string) : (a ++ b) ++ c = a ++ (b ++ c).
Proof. induction a; simpl; congruence. Qed.

Lemma length_append (a b : string) :
  String.length (a ++ b) = (String.length a + String.length b)%nat.
Proof. induction a; simpl; congruence. Qed.

Lemma all_digits_app (a b : string) :
  all_digits (a ++ b) = all_digits a && all_digits b.
Proof.
  induction a as [|c a IH]; [reflexivity|].
  simpl. now rewrite IH, andb_assoc.
Qed.

Lemma substring_prefix (n : nat) (s : string) :
  (n <= String.length s)%nat ->
  exists tail,
    s = substring 0 n s ++ tail /\
    String.length (substring 0 n s) = n.
Proof.
  revert n. induction s as [|c s IH]; intros [|n] H; simpl in H.
  - exists EmptyString. now split.
  - lia.
  - exists (String c s). now split.
  - destruct (IH n ltac:(lia)) as (tail & Ht & Hl).
    exists tail. simpl. split; [now f_equal|now f_equal].
Qed.

(** The text of the clock reading, cut of its last three characters, reads
    as the whole seconds. *)
Lemma seconds_text_value (now : Z) :
  1000 <= now ->
  JS.parseInt (JS.seconds_text now) = Some (now / 1000).
Proof.
  intro H.
  destruct (@toString_digits now ltac:(lia)) as [Ha Hd].
  unfold JS.seconds_text, JS.slice_0_m3.
  set (s := JS.toString now) in *.
  destruct (@digits_value s Ha) as (v & Hv & Hf).
  assert (Hne : s <> EmptyString) by (intros E; rewrite E in Hd; discriminate).
  rewrite (@digits_from_none s Ha Hne), Hf in Hd.
  assert (Hlen : (4 <= String.length s)%nat).
  { destruct (Nat.le_gt_cases 4 (String.length s)) as [L|L]; [exact L|].
    assert (10 ^ Z.of_nat (String.length s) <= 10 ^ 3)
      by (apply Z.pow_le_mono_r; lia).
    injection Hd as Hd. lia. }
  destruct (@substring_prefix (String.length s - 3) s ltac:(lia))
    as (tail & Hs & Hl).
  set (s1 := substring 0 (String.length s - 3) s) in *.
  assert (Ht : String.length tail = 3%nat).
  { apply (f_equal String.length) in Hs. rewrite length_append in Hs. lia. }
  assert (Hd12 : all_digits s1 = true /\ all_digits tail = true).
  { rewrite Hs, all_digits_app in Ha. now apply andb_prop in Ha. }
  destruct Hd12 as [Ha1 Ha2].
  destruct (@digits_value s1 Ha1) as (v1 & Hv1 & Hf1).
  destruct (@digits_value tail Ha2) as (v2 & Hv2 & Hf2).
  assert (Hne1 : s1 <> EmptyString).
  { intro E. rewrite E in Hl. simpl in Hl. lia. }
  rewrite (@parseInt_digits s1 Ha1), (@digits_from_none s1 Ha1 Hne1), Hf1.
  f_equal.
  assert (Hall : JS.digits 10 s (Some 0) =
                 Some ((0 * 10 ^ Z.of_nat (String.length s1) + v1) *
                       10 ^ Z.of_nat (String.length tail) + v2)).
  { rewrite Hs at 1. rewrite (@digits_app s1 tail (Some 0) Ha1), Hf1, Hf2. reflexivity. }
  rewrite Hf in Hall. injection Hd as Hd. injection Hall as Hall.
  rewrite Ht in Hall, Hv2. change (10 ^ Z.of_nat 3) with 1000 in *.
  replace (0 * 10 ^ Z.of_nat (String.length s1) + v1) with v1 by lia.
  apply Z.div_unique with v2; lia.
Qed.

Lemma split_aux_lacks (sep : ascii) (s rest cur : string) :
  lacks sep s = true ->
  JS.split_aux sep (s ++ rest) cur = JS.split_aux sep rest (cur ++ s).
Proof.
  revert cur. induction s as [|c s IH]; intros cur H.
  - simpl. now rewrite append_nil_r.
  - simpl in H. apply andb_prop in H as [Hc Hs].
    simpl append. cbn [JS.split_aux].
    destruct (Ascii.eqb c sep); [discriminate Hc|].
    rewrite (IH _ Hs), append_assoc. reflexivity.
Qed.

Lemma split_aux_sep (sep : ascii) (rest cur : string) :
  JS.split_aux sep (String sep rest) cur =
  cur :: JS.split_aux sep rest EmptyString.
Proof. cbn [JS.split_aux]. now rewrite Ascii.eqb_refl. Qed.

Lemma split_lacks (sep : ascii) (s : string) :
  lacks sep s = true -> JS.split sep s = [s].
Proof.
  intro H. unfold JS.split.
  rewrite <- (append_nil_r s) at 1.
  now rewrite (@split_aux_lacks sep s EmptyString EmptyString H).
Qed.

Lemma all_digits_lacks_colon (s : string) :
  all_digits s = true -> lacks ":" s = true.
Proof.
  induction s as [|c s IH]; [reflexivity|]. simpl. intro H.
  apply andb_prop in H as [Hc Hs]. rewrite (IH Hs), andb_true_r.
  apply is_digit_cases in Hc.
  repeat (destruct Hc as [-> | Hc]); [..|subst c]; reflexivity.
Qed.

Lemma seconds_text_digits (now : Z) :
  0 <= now -> all_digits (JS.seconds_text now) = true.
Proof.
  intro H. destruct (@toString_digits now H) as [Ha _].
  unfold JS.seconds_text, JS.slice_0_m3.
  destruct (@substring_prefix (String.length (JS.toString now) - 3)
                              (JS.toString now) ltac:(lia))
    as (tail & Hs & _).
  rewrite Hs, all_digits_app in Ha. now apply andb_prop in Ha.
Qed.

(** X5. For a clock reading of at least one second, the current time that
    [submitStar] computes, the parse of the reading's text cut of its last
    three characters, is the reading in whole seconds. *)
Theorem clock_whole_seconds (now : Z) :
  1000 <= now ->
  JS.parseInt (JS.seconds_text now) = Some (now / 1000).
Proof. apply seconds_text_value. Qed.

End Text.

(** ** Further properties of the class *)

Section Extras.

Context {C : Collaborators}.

Local Open Scope list_scope.

Lemma issued_message_fields (address : string) (now : Z) :
  lacks ":" address = true ->
  0 <= now ->
  exists message,
    requestMessageOwnershipVerification address now = Fulfilled message /\
    JS.split ":" message =
      [address; JS.seconds_text now; "starRegistry"%string].
Proof.
  intros Ha Hn. eexists. split; [reflexivity|].
  unfold JS.split.
  change (address ++ ":" ++ JS.seconds_text now ++ ":starRegistry")%string
    with (address ++
          String ":" (JS.seconds_text now ++ String ":" "starRegistry"))%string.
  rewrite (@split_aux_lacks ":" address _ EmptyString Ha), split_aux_sep.
  rewrite (@split_aux_lacks ":" (JS.seconds_text now) _ EmptyString
             (all_digits_lacks_colon _ (seconds_text_digits Hn))),
    split_aux_sep.
  reflexivity.
Qed.


Lemma validate_each_report (all blocks : list Block.t)
  (errorLog : list string) :
  (forall b, In b blocks -> Block_validate b = true) ->
  validate_each all blocks errorLog =
  Normal (errorLog ++ flat_map (linkage_report all) blocks).
Proof.
  revert errorLog.
  induction blocks as [|b rest IH]; intros errorLog H.
  - simpl. now rewrite app_nil_r.
  - cbn [validate_each flat_map].
    rewrite (H b (or_introl eq_refl)). cbn [negb].
    assert (IH' := fun l => IH l (fun x Hx => H x (or_intror Hx))).
    unfold linkage_report at 1.
    destruct (Block.height b =? 0); [now rewrite IH'|].
    destruct (find _ all) as [p|].
    + destruct (Block.height p =? Block.height b - 1); cbn [negb];
        rewrite IH'; [reflexivity|now rewrite <- app_assoc].
    + cbn [negb]. rewrite IH'. now rewrite <- app_assoc.
Qed.

Lemma validateChain_well_linked (self : Blockchain) :
  well_linked (chain self) ->
  collision_free (chain self) ->
  validateChain self = Fulfilled [].
Proof.
  intros Hw Hcf. unfold validateChain.
  rewrite validate_each_passes; [reflexivity|].
  intros b Hb. now apply well_linked_passes.
Qed.

Lemma _addBlock_extends (block : Block.t) (now : Z) (self : Blockchain) :
  snd (_addBlock block now self) = self \/
  exists b,
    snd (_addBlock block now self) =
    mkChain (chain self ++ [b]) (height self + 1).
Proof.
  unfold _addBlock.
  destruct (0 <? List.length (chain self))%nat.
  - destruct (index (chain self) (height self)).
    + right. destruct (validateChain _); eexists; reflexivity.
    + now left.
  - right. destruct (validateChain _); eexists; reflexivity.
Qed.

(** The promise of a submission, case by case. *)
Lemma submitStar_promise (address message signature star : string)
  (now appended_at : Z) (self : Blockchain) :
  fst (submitStar address message signature star now appended_at self) =
  if JS.gt (elapsed now message) 300 then Rejected (Str expired_message)
  else
    match verify message address signature with
    | Throw error => Rejected error
    | Normal false => Rejected (Str invalid_message)
    | Normal true =>
        fst (_addBlock (Block_new (StarData address message signature star))
                       appended_at self)
    end.
Proof.
  unfold submitStar. fold (elapsed now message).
  destruct (JS.gt (elapsed now message) 300);
    destruct (verify message address signature) as [[|]|e];
    try reflexivity;
    destruct (_addBlock _ appended_at self) as [added self'];
    destruct added; reflexivity.
Qed.

(** An append on a consistent ledger, in full: the ledger it leaves and the
    promise it returns. *)
Lemma _addBlock_consistent_result (block : Block.t) (now : Z)
  (self : Blockchain) :
  consistent self ->
  _addBlock block now self =
  (match
     validateChain (mkChain (chain self ++ [record_of block now self])
                            (height self + 1))
   with
   | Fulfilled [] => Fulfilled (record_of block now self)
   | Fulfilled (e :: errs) => Rejected (StrList (e :: errs))
   | Rejected error => Rejected error
   | Pending => Pending
   end,
   mkChain (chain self ++ [record_of block now self]) (height self + 1)).
Proof.
  unfold consistent, _addBlock, record_of, link_of.
  destruct self as [l h]; simpl chain; simpl height. intros ->.
  destruct l as [|x l' _] using rev_ind.
  - simpl. destruct (validateChain _) as [|[|e errs]|]; reflexivity.
  - replace (0 <? List.length (l' ++ [x]))%nat with true
      by (rewrite length_app; simpl; symmetry; apply Nat.ltb_lt; lia).
    rewrite index_snoc, rev_app_distr. simpl rev. simpl app.
    destruct (validateChain _) as [|[|e errs]|]; reflexivity.
Qed.

(** A clean append: on a well-linked ledger whose extension is free of
    collisions the call resolves with the record it appended. *)
Lemma _addBlock_clean (data : Data) (now : Z) (self : Blockchain) :
  invariant self ->
  collision_free (chain self ++ [record_of (Block_new data) now self]) ->
  _addBlock (Block_new data) now self =
  (Fulfilled (record_of (Block_new data) now self),
   mkChain (chain self ++ [record_of (Block_new data) now self])
           (height self + 1)).
Proof.
  intros [Hc Hw] Hcf.
  rewrite (@_addBlock_consistent_result (Block_new data) now self Hc).
  rewrite validateChain_well_linked; [reflexivity| |exact Hcf].
  now apply well_linked_snoc.
Qed.

(** *** The constructor and initializeChain *)

(** X1. The constructor leaves a ledger of exactly one record at chain
    height 0: the genesis record, with height 0, no predecessor hash, the
    encoded genesis marker as body, the clock reading in seconds as time,
    and a hash that matches its content. *)
Theorem constructor_genesis (now : Z) :
  exists g,
    constructor now = mkChain [g] 0 /\
    Block.height g = 0 /\
    Block.previousBlockHash g = None /\
    Block.body g = encode GenesisData /\
    Block.time g = JS.seconds_text now /\
    Block_validate g = true.
Proof.
  exists (record_of (Block_new GenesisData) now (mkChain [] (-1))).
  split.
  - unfold constructor, initializeChain. simpl height. simpl Z.eqb.
    cbv iota.
    rewrite (@_addBlock_ledger _ (Block_new GenesisData) now
                               (mkChain [] (-1)) eq_refl).
    reflexivity.
  - repeat split. apply sealed_validate. reflexivity.
Qed.

(** Whether an append throws depends on the ledger alone. *)
Lemma _addBlock_unchanged (block block' : Block.t) (now now' : Z)
  (self : Blockchain) :
  snd (_addBlock block now self) = self ->
  snd (_addBlock block' now' self) = self.
Proof.
  unfold _addBlock.
  destruct (0 <? List.length (chain self))%nat;
    [destruct (index (chain self) (height self));
       [|reflexivity]|];
    destruct (validateChain _); cbn [snd]; intro Hs;
    apply (f_equal (fun s => List.length (chain s))) in Hs;
    cbn [chain] in Hs; rewrite length_app in Hs; simpl in Hs; lia.
Qed.

(** X2. [initializeChain] is idempotent: calling it again, at any later
    time, changes nothing, whatever the ledger it was first called on. *)
Theorem initializeChain_idempotent (now now' : Z) (self : Blockchain) :
  initializeChain now' (initializeChain now self) = initializeChain now self.
Proof.
  destruct (height self =? -1) eqn:Hh.
  - assert (E : initializeChain now self =
                snd (_addBlock (Block_new GenesisData) now self))
      by (unfold initializeChain; now rewrite Hh).
    rewrite E.
    destruct (_addBlock_extends (Block_new GenesisData) now self)
      as [Hs | (b & Hs)].
    + rewrite Hs. unfold initializeChain. rewrite Hh.
      now apply _addBlock_unchanged with (Block_new GenesisData) now.
    + rewrite Hs. unfold initializeChain. cbn [height].
      apply Z.eqb_eq in Hh. rewrite Hh. reflexivity.
  - assert (E : initializeChain now self = self)
      by (unfold initializeChain; now rewrite Hh).
    rewrite E. unfold initializeChain. now rewrite Hh.
Qed.

(** X3. On every ledger the class builds, [getChainHeight] resolves with
    the number of records minus one. *)
Theorem getChainHeight_reachable (self : Blockchain) :
  reachable self ->
  getChainHeight self = Fulfilled (Z.of_nat (List.length (chain self)) - 1).
Proof.
  intro Hr. destruct (reachable_invariant Hr) as [Hc _].
  unfold getChainHeight. now rewrite Hc.
Qed.


(** *** Submissions *)

(** X8. A submission never removes or alters a record already in the
    ledger: the chain after the call is the chain before it followed by at
    most one record, and [height] moves up by the number of records
    added. *)
Theorem submitStar_append_only (address message signature star : string)
  (now appended_at : Z) (self : Blockchain) :
  exists added,
    chain (snd (submitStar address message signature star
                           now appended_at self)) = chain self ++ added /\
    (List.length added <= 1)%nat /\
    height (snd (submitStar address message signature star
                            now appended_at self)) =
    height self + Z.of_nat (List.length added).
Proof.
  rewrite submitStar_ledger.
  destruct (verify message address signature) as [v|e].
  - destruct (_addBlock_extends
                (Block_new (StarData address message signature star))
                appended_at self) as [Hs | (b & Hs)]; rewrite Hs.
    + exists []. rewrite app_nil_r. simpl. repeat split; lia.
    + exists [b]. simpl. repeat split; lia.
  - exists []. rewrite app_nil_r. simpl. repeat split; lia.
Qed.

(** X11. On a ledger the class built, a submission that is not stale and
    that the verifier accepts resolves with the record it appended, provided
    the digest does not collide on the records of the ledger it leaves.  The
    record sits at the end of the chain, its height is the former number of
    records, its body the encoded submission and its time the clock reading
    of the append in seconds. *)
Theorem submitStar_fresh_valid_resolves
  (address message signature star : string) (now appended_at : Z)
  (self : Blockchain) :
  reachable self ->
  JS.gt (elapsed now message) 300 = false ->
  verify message address signature = Normal true ->
  collision_free
    (chain (snd (submitStar address message signature star
                            now appended_at self))) ->
  exists b,
    submitStar address message signature star now appended_at self =
      (Fulfilled b, mkChain (chain self ++ [b]) (height self + 1)) /\
    Block.height b = Z.of_nat (List.length (chain self)) /\
    Block.body b = encode (StarData address message signature star) /\
    Block.time b = JS.seconds_text appended_at.
Proof.
  intros Hr Hfresh Hv Hcf.
  destruct (reachable_invariant Hr) as [Hc Hw].
  set (data := StarData address message signature star) in *.
  rewrite submitStar_ledger, Hv, (@_addBlock_ledger _ (Block_new data)
                                    appended_at self Hc) in Hcf.
  cbn [chain] in Hcf.
  exists (record_of (Block_new data) appended_at self).
  split; [|repeat split; cbn; unfold consistent in Hc; lia].
  rewrite (surjective_pairing (submitStar _ _ _ _ _ _ _)).
  rewrite submitStar_promise, Hfresh, Hv, submitStar_ledger, Hv.
  fold data.
  now rewrite (@_addBlock_clean data appended_at self (conj Hc Hw) Hcf).
Qed.

(** X9. When the verifier throws, the ledger is left as it was and the call
    is rejected: with the expiry message when the message is stale,
    otherwise with the error the verifier threw. *)
Theorem submitStar_verifier_throws
  (address message signature star : string) (now appended_at : Z)
  (self : Blockchain) (error : Reason) :
  verify message address signature = Throw error ->
  submitStar address message signature star now appended_at self =
  (if JS.gt (elapsed now message) 300 then Rejected (Str expired_message)
   else Rejected error,
   self).
Proof.
  intro Hv.
  rewrite (surjective_pairing (submitStar _ _ _ _ _ _ _)).
  now rewrite submitStar_promise, submitStar_ledger, Hv.
Qed.

(** X10. A submission whose message is not stale and whose signature the
    verifier answers false to is rejected with the invalid-message text. *)
Theorem submitStar_fresh_invalid_signature
  (address message signature star : string) (now appended_at : Z)
  (self : Blockchain) :
  JS.gt (elapsed now message) 300 = false ->
  verify message address signature = Normal false ->
  fst (submitStar address message signature star now appended_at self) =
  Rejected (Str invalid_message).
Proof. intros Hf Hv. now rewrite submitStar_promise, Hf, Hv. Qed.

(** X7. A message with no colon in it never trips the staleness check, at
    any clock reading: its timestamp parses to [NaN]. *)
Theorem submitStar_no_colon_never_expires (message : string) (now : Z) :
  lacks ":" message = true ->
  JS.gt (elapsed now message) 300 = false.
Proof.
  intro H. unfold elapsed. rewrite (split_lacks _ _ H). cbn [nth_error].
  change (JS.parseInt_value None) with JS.NaN.
  now destruct (JS.parseInt (JS.seconds_text now)).
Qed.


(** *** Queries on the ledgers the class builds *)

Lemma find_height_well_linked (l : list Block.t) (h : Z) :
  well_linked l ->
  find (fun p => Block.height p =? h) l = index l h.
Proof.
  intro Hw. destruct (find _ l) as [p|] eqn:Hf.
  - destruct (find_first _ _ Hf) as (i & Hi & Hp & _).
    destruct (Hw i p Hi) as (Hh & _). apply Z.eqb_eq in Hp.
    unfold index. destruct (Z.ltb_spec h 0) as [Hn|_]; [lia|].
    replace (Z.to_nat h) with i by lia. now symmetry.
  - unfold index. destruct (Z.ltb_spec h 0) as [Hn|Hn]; [reflexivity|].
    destruct (nth_error l (Z.to_nat h)) as [b|] eqn:Hb; [|reflexivity].
    destruct (Hw _ b Hb) as (Hh & _).
    assert (Hin : In b l) by (now apply nth_error_In with (Z.to_nat h)).
    apply (find_none _ _ Hf) in Hin. apply Z.eqb_neq in Hin. lia.
Qed.

(** X16. On every ledger the class builds, [getBlockByHeight h] resolves
    with the record at position [h] of the chain, and with [null] when [h]
    is negative or not below the number of records; it is never
    rejected. *)
Theorem getBlockByHeight_reachable (h : Z) (self : Blockchain) :
  reachable self ->
  getBlockByHeight h self = Fulfilled (index (chain self) h).
Proof.
  intro Hr. destruct (reachable_invariant Hr) as [_ Hw].
  unfold getBlockByHeight. rewrite (find_height_well_linked h Hw).
  destruct (index (chain self) h); reflexivity.
Qed.

(** X14. On a ledger where no two records share a hash, looking up the
    stored hash of any record of the chain resolves with that very record. *)
Theorem getBlockByHash_stored_record (self : Blockchain) (i : nat)
  (b : Block.t) :
  collision_free (chain self) ->
  nth_error (chain self) i = Some b ->
  getBlockByHash (Block.hash b) self = Fulfilled b.
Proof.
  intros Hcf Hi. unfold getBlockByHash.
  rewrite (@find_first_hash (chain self) b Hcf
             (nth_error_In _ _ Hi)).
  reflexivity.
Qed.

(** X17. On every ledger the class builds, the record at position [i] has
    height [i], passes [validate()], and has a hash that is not [null]. *)
Theorem reachable_records_sealed (self : Blockchain) (i : nat)
  (b : Block.t) :
  reachable self ->
  nth_error (chain self) i = Some b ->
  Block.height b = Z.of_nat i /\
  Block_validate b = true /\
  Block.hash b <> None.
Proof.
  intros Hr Hi. destruct (reachable_invariant Hr) as [_ Hw].
  destruct (Hw i b Hi) as (Hh & Hs & _).
  repeat split; [exact Hh|now apply sealed_validate|].
  unfold sealed in Hs. congruence.
Qed.

(** X15. On every ledger the class builds, looking up [null] is rejected
    with the not-found message: no record is left without a hash. *)
Theorem getBlockByHash_null_not_found (self : Blockchain) :
  reachable self ->
  getBlockByHash None self = Rejected (Str not_found_message).
Proof.
  intro Hr. destruct (reachable_invariant Hr) as [_ Hw].
  unfold getBlockByHash.
  destruct (find _ (chain self)) as [b|] eqn:Hf; [|reflexivity].
  apply find_some in Hf as [Hin He].
  destruct (In_nth_error _ _ Hin) as [i Hi].
  destruct (Hw i b Hi) as (_ & Hs & _). unfold sealed in Hs.
  rewrite Hs in He. discriminate He.
Qed.

(** *** The validator and the append, off the beaten path *)

Lemma linkage_report_unlinked (all : list Block.t) (b : Block.t)
  (msg : string) :
  In msg (linkage_report all b) <->
  unlinked all b /\ msg = broken_message (Block.height b).
Proof.
  unfold linkage_report, unlinked.
  destruct (Z.eqb_spec (Block.height b) 0) as [H0|H0].
  - split; [intros []|intros [[H _] _]; contradiction].
  - destruct (find _ all) as [p|].
    + destruct (Z.eqb_spec (Block.height p) (Block.height b - 1)) as [Hp|Hp].
      * split; [intros []|intros [[_ H] _]; contradiction].
      * split.
        -- intros [<-|[]]. repeat split; assumption.
        -- intros [_ ->]. now left.
    + split.
      * intros [<-|[]]. repeat split; assumption.
      * intros [_ ->]. now left.
Qed.

(** X18. When the digest of every record matches its stored hash,
    [validateChain] resolves, and its list holds exactly the linkage
    messages of the records the linkage check objects to: one naming the
    height of each record that is not at height 0 and whose predecessor
    hash leads to no record, or to a first match that is not one height
    below. *)
Theorem validateChain_reports_exactly (self : Blockchain) :
  (forall b, In b (chain self) -> Block_validate b = true) ->
  exists errorLog,
    validateChain self = Fulfilled errorLog /\
    forall msg,
      In msg errorLog <->
      exists b,
        In b (chain self) /\ unlinked (chain self) b /\
        msg = broken_message (Block.height b).
Proof.
  intro H. eexists. split.
  - unfold validateChain.
    now rewrite (@validate_each_report (chain self) (chain self) [] H).
  - intro msg. cbn [app]. rewrite in_flat_map. split.
    + intros (b & Hb & Hm). exists b.
      apply linkage_report_unlinked in Hm. tauto.
    + intros (b & Hb & Hu & Hm). exists b. split; [exact Hb|].
      now apply linkage_report_unlinked.
Qed.

(** X19. When the digest of every record matches, a record that is not at
    height 0 and whose predecessor hash is the hash of no record of the
    ledger is reported: [validateChain] resolves with a list that holds the
    linkage message naming its height. *)
Theorem validateChain_reports_unlinked (self : Blockchain) (b : Block.t) :
  (forall x, In x (chain self) -> Block_validate x = true) ->
  In b (chain self) ->
  Block.height b <> 0 ->
  (forall p, In p (chain self) ->
             Block.hash p <> Block.previousBlockHash b) ->
  exists errorLog,
    validateChain self = Fulfilled errorLog /\
    In (broken_message (Block.height b)) errorLog.
Proof.
  intros H Hin Hh Hp. eexists. split.
  - unfold validateChain.
    now rewrite (@validate_each_report (chain self) (chain self) [] H).
  - apply in_flat_map. exists b. split; [exact Hin|].
    unfold linkage_report. apply Z.eqb_neq in Hh. rewrite Hh.
    destruct (find _ (chain self)) as [p|] eqn:Hf; [|now left].
    apply find_some in Hf as [Hpin He]. apply strict_eq_true in He.
    now apply Hp in Hpin.
Qed.

(** X20. The linkage check is skipped for every record whose height field
    is 0, wherever it sits: a ledger whose records all match their digest
    and all carry height 0 validates with an empty list, whatever their
    predecessor hashes. *)
Theorem validateChain_height_zero_unchecked (self : Blockchain) :
  (forall b, In b (chain self) ->
             Block_validate b = true /\ Block.height b = 0) ->
  validateChain self = Fulfilled [].
Proof.
  intro H. unfold validateChain.
  rewrite validate_each_passes; [reflexivity|].
  intros b Hb. destruct (H b Hb). split; [assumption|now left].
Qed.

(** X4. If the chain is not empty and its [height] field points at no
    record, [_addBlock] is rejected with the [TypeError] of reading [hash]
    off [undefined], and the ledger is left as it was. *)
Theorem _addBlock_missing_last_rejects (block : Block.t) (now : Z)
  (self : Blockchain) :
  chain self <> [] ->
  index (chain self) (height self) = None ->
  _addBlock block now self =
  (Rejected
     (TypeError "Cannot read properties of undefined (reading 'hash')"),
   self).
Proof.
  intros Hne Hi. unfold _addBlock. rewrite Hi.
  destruct (chain self); [contradiction|reflexivity].
Qed.

(** *** From the issued message to the submission *)

Lemma issued_message_elapsed (address : string) (issued now : Z) :
  lacks ":" address = true ->
  1000 <= issued ->
  1000 <= now ->
  elapsed now (address ++ ":" ++ JS.seconds_text issued ++ ":starRegistry")
  = Some (now / 1000 - issued / 1000).
Proof.
  intros Ha Hi Hn. unfold elapsed.
  assert (Hs : JS.split ":" (address ++ ":" ++ JS.seconds_text issued ++
                             ":starRegistry")%string =
               [address; JS.seconds_text issued; "starRegistry"%string]).
  { unfold JS.split.
    change (address ++ ":" ++ JS.seconds_text issued ++ ":starRegistry")%string
      with (address ++ String ":" (JS.seconds_text issued ++
                                   String ":" "starRegistry"))%string.
    rewrite (@split_aux_lacks ":" address _ EmptyString Ha), split_aux_sep.
    rewrite (@split_aux_lacks ":" (JS.seconds_text issued) _ EmptyString),
      split_aux_sep; [reflexivity|].
    apply all_digits_lacks_colon, seconds_text_digits. lia. }
  rewrite Hs. cbn [nth_error]. unfold JS.parseInt_value.
  rewrite !seconds_text_value by assumption. reflexivity.
Qed.

(** X6. The message issued for an address that contains no colon, at a clock
    reading of at least one second, splits at its colons into the address,
    the seconds text and [starRegistry], and the timestamp [submitStar]
    parses out of it is the issuing time in whole seconds. *)
Theorem issued_message_timestamp (address : string) (now : Z) :
  lacks ":" address = true ->
  1000 <= now ->
  exists message,
    requestMessageOwnershipVerification address now = Fulfilled message /\
    JS.split ":" message =
      [address; JS.seconds_text now; "starRegistry"%string] /\
    JS.parseInt_value (nth_error (JS.split ":" message) 1) =
      Some (now / 1000).
Proof.
  intros Ha Hn.
  destruct (@issued_message_fields address now Ha ltac:(lia))
    as (message & Hm & Hs).
  exists message. repeat split; [exact Hm|exact Hs|].
  rewrite Hs. cbn [nth_error]. unfold JS.parseInt_value.
  now apply seconds_text_value.
Qed.

(** X12. The message issued for a colon-free address at clock reading
    [issued], submitted when the clock, in whole seconds, is more than 300
    past the issuing second, is rejected with the expiry message. *)
Theorem submitStar_issued_message_expires
  (address signature star : string) (issued now appended_at : Z)
  (self : Blockchain) :
  lacks ":" address = true ->
  1000 <= issued ->
  1000 <= now ->
  now / 1000 - issued / 1000 > 300 ->
  fst (submitStar address
         (address ++ ":" ++ JS.seconds_text issued ++ ":starRegistry")
         signature star now appended_at self) =
  Rejected (Str expired_message).
Proof.
  intros Ha Hi Hn Hgt.
  rewrite submitStar_promise, (@issued_message_elapsed address issued now Ha Hi Hn).
  unfold JS.gt.
  now replace (300 <? now / 1000 - issued / 1000) with true
    by (symmetry; apply Z.ltb_lt; lia).
Qed.

(** X13. The message issued for a colon-free address at clock reading
    [issued], submitted with a signature the verifier accepts while the
    clock, in whole seconds, is at most 300 past the issuing second, resolves
    with the appended record on every ledger the class built (the digest
    not colliding on the ledger it leaves). *)
Theorem submitStar_issued_message_in_time
  (address signature star : string) (issued now appended_at : Z)
  (self : Blockchain) :
  lacks ":" address = true ->
  1000 <= issued ->
  1000 <= now ->
  now / 1000 - issued / 1000 <= 300 ->
  verify (address ++ ":" ++ JS.seconds_text issued ++ ":starRegistry")
         address signature = Normal true ->
  reachable self ->
  collision_free
    (chain (snd (submitStar address
                   (address ++ ":" ++ JS.seconds_text issued ++
                    ":starRegistry")
                   signature star now appended_at self))) ->
  exists b,
    submitStar address
      (address ++ ":" ++ JS.seconds_text issued ++ ":starRegistry")
      signature star now appended_at self =
      (Fulfilled b, mkChain (chain self ++ [b]) (height self + 1)) /\
    Block.height b = height self + 1 /\
    Block.body b =
      encode (StarData address
                (address ++ ":" ++ JS.seconds_text issued ++ ":starRegistry")
                signature star).
Proof.
  intros Ha Hi Hn Hle Hv Hr Hcf.
  set (message := (address ++ ":" ++ JS.seconds_text issued ++
                   ":starRegistry")%string) in *.
  set (data := StarData address message signature star).
  destruct (reachable_invariant Hr) as [Hc Hw].
  assert (Hfresh : JS.gt (elapsed now message) 300 = false).
  { unfold message. rewrite (@issued_message_elapsed address issued now Ha Hi Hn).
    unfold JS.gt. apply Z.ltb_ge. lia. }
  rewrite submitStar_ledger, Hv, (@_addBlock_ledger _ (Block_new data)
                                    appended_at self Hc) in Hcf.
  cbn [chain] in Hcf.
  exists (record_of (Block_new data) appended_at self).
  split; [|split; reflexivity].
  rewrite (surjective_pairing (submitStar _ _ _ _ _ _ _)).
  rewrite submitStar_promise, Hfresh, Hv, submitStar_ledger, Hv.
  fold data.
  now rewrite (@_addBlock_clean data appended_at self (conj Hc Hw) Hcf).
Qed.

(** *** Stars of an owner *)

Lemma stars_of_app (address : string) (l1 l2 : list Block.t) :
  stars_of address (l1 ++ l2) = stars_of address l1 ++ stars_of address l2.
Proof. unfold stars_of. apply flat_map_app. Qed.

(** X21. After a submission on which the verifier returned (whether it
    accepted or not) on a ledger whose height is its length minus one, and
    whose payload decodes back to what was encoded, the stars of the
    submitting address, read once the callbacks of the query have all run,
    are the ones listed before the submission followed by the new star. *)
Theorem submitted_star_listed (address message signature star : string)
  (now appended_at : Z) (self : Blockchain) (valid : bool) :
  consistent self ->
  verify message address signature = Normal valid ->
  decode (encode (StarData address message signature star)) =
    Some (StarData address message signature star) ->
  stars (resume_all address
           (getStarsByWalletAddress address
              (snd (submitStar address message signature star
                               now appended_at self)))) =
  stars (resume_all address (getStarsByWalletAddress address self)) ++
  [mkStar address star].
Proof.
  intros Hc Hv Hd.
  rewrite !resume_all_stars, submitStar_ledger, Hv.
  rewrite (@_addBlock_ledger _ _ appended_at self Hc). cbn [chain].
  rewrite stars_of_app. f_equal.
  unfold stars_of. cbn [flat_map]. unfold Block_getBData.
  cbn [record_of Block.set_hash Block.body Block_new].
  rewrite Hd, String.eqb_refl. reflexivity.
Qed.

(** X22. Once the callbacks of the query have all run, the shared array
    holds exactly the entries that come from a record whose decoded payload
    carries the queried address: each entry has that address as owner and
    the star of such a record, and every such record has its entry. *)
Theorem resumed_stars_exactly (address : string) (self : Blockchain)
  (entry : Star) :
  In entry (stars (resume_all address
                     (getStarsByWalletAddress address self))) <->
  owner entry = address /\
  exists b message signature,
    In b (chain self) /\
    Block_getBData b =
      Some (StarData address message signature (star entry)).
Proof.
  rewrite resume_all_stars. unfold stars_of. rewrite in_flat_map. split.
  - intros (b & Hb & He).
    destruct (Block_getBData b) as [[|a m sg st]|] eqn:Hd;
      try (destruct He; fail).
    destruct (String.eqb_spec a address) as [->|Hn]; [|destruct He].
    destruct He as [<-|[]]. split; [reflexivity|].
    exists b, m, sg. split; [exact Hb|exact Hd].
  - intros (Ho & b & m & sg & Hb & Hd). exists b. split; [exact Hb|].
    rewrite Hd, String.eqb_refl. left.
    destruct entry as [o st]. simpl in *. now subst o.
Qed.

(** X23. When no record of the ledger decodes to a payload carrying the
    queried address, the shared array is still empty after every callback
    of the query has run; records whose payload has no address, or does not
    decode, never add to it. *)
Theorem resumed_stars_empty (address : string) (self : Blockchain) :
  (forall b a message signature st,
      In b (chain self) ->
      Block_getBData b = Some (StarData a message signature st) ->
      a <> address) ->
  stars (resume_all address (getStarsByWalletAddress address self)) = [].
Proof.
  intro H. rewrite resume_all_stars. unfold stars_of.
  induction (chain self) as [|b l IH]; [reflexivity|].
  cbn [flat_map]. rewrite IH by (intros; eapply H; [right|]; eassumption).
  destruct (Block_getBData b) as [[|a m sg st]|] eqn:Hd; try reflexivity.
  destruct (String.eqb_spec a address) as [->|Hn]; [|reflexivity].
  exfalso. eapply H; [left; reflexivity|exact Hd|reflexivity].
Qed.

End Extras.

(** ** The further properties at work on the sample ledgers *)

Section SampleExtras.

Import Sample.

Local Open Scope list_scope.

Lemma ledger0_reachable : reachable ledger0.
Proof. apply reach_constructor. Qed.

Lemma relinked_digests_match :
  forall b, In b (chain relinked) -> Block_validate b = true.
Proof. intros b [<-|[<-|[]]]; reflexivity. Qed.

Lemma getChainHeight_reachable_witness :
  reachable ledger1 /\
  getChainHeight ledger1 =
  Fulfilled (Z.of_nat (List.length (chain ledger1)) - 1).
Proof.
  exact (conj ledger1_reachable
              (@getChainHeight_reachable _ ledger1 ledger1_reachable)).
Defined.

Lemma _addBlock_missing_last_rejects_witness :
  chain skewed <> [] /\
  index (chain skewed) (height skewed) = None /\
  _addBlock (Block_new star1) t0 skewed =
  (Rejected
     (TypeError "Cannot read properties of undefined (reading 'hash')"),
   skewed).
Proof.
  assert (Hne : chain skewed <> []) by discriminate.
  assert (Hi : index (chain skewed) (height skewed) = None) by reflexivity.
  exact (conj Hne (conj Hi
           (@_addBlock_missing_last_rejects _ (Block_new star1) t0 skewed
                                            Hne Hi))).
Defined.

Lemma clock_whole_seconds_witness :
  1000 <= t0 /\ JS.parseInt (JS.seconds_text t0) = Some (t0 / 1000).
Proof.
  assert (H : 1000 <= t0) by (unfold t0; lia).
  exact (conj H (@clock_whole_seconds t0 H)).
Defined.

Lemma issued_message_timestamp_witness :
  lacks ":" "addr1" = true /\
  1000 <= t0 /\
  exists message,
    requestMessageOwnershipVerification "addr1" t0 = Fulfilled message /\
    JS.split ":" message =
      ["addr1"%string; JS.seconds_text t0; "starRegistry"%string] /\
    JS.parseInt_value (nth_error (JS.split ":" message) 1) =
      Some (t0 / 1000).
Proof.
  assert (Ha : lacks ":" "addr1" = true) by reflexivity.
  assert (H : 1000 <= t0) by (unfold t0; lia).
  exact (conj Ha (conj H (@issued_message_timestamp "addr1" t0 Ha H))).
Defined.

Lemma submitStar_no_colon_never_expires_witness :
  lacks ":" message_plain = true /\
  JS.gt (elapsed (t0 + 86400000) message_plain) 300 = false.
Proof.
  assert (H : lacks ":" message_plain = true) by reflexivity.
  exact (conj H (@submitStar_no_colon_never_expires
                   message_plain (t0 + 86400000) H)).
Defined.

Lemma submitStar_verifier_throws_witness :
  verify message1 "addr1" EmptyString =
    Throw (VerifierError "Invalid signature length") /\
  submitStar "addr1" message1 EmptyString "Vega"
             (t0 + 10000) (t0 + 10000) ledger1 =
  (if JS.gt (elapsed (t0 + 10000) message1) 300
   then Rejected (Str expired_message)
   else Rejected (VerifierError "Invalid signature length"),
   ledger1).
Proof.
  assert (Hv : verify message1 "addr1" EmptyString =
               Throw (VerifierError "Invalid signature length"))
    by reflexivity.
  exact (conj Hv
           (@submitStar_verifier_throws
              _ "addr1" message1 EmptyString "Vega" (t0 + 10000)
              (t0 + 10000) ledger1 _ Hv)).
Defined.

Lemma submitStar_fresh_invalid_signature_witness :
  JS.gt (elapsed (t0 + 10000) message1) 300 = false /\
  verify message1 "addr1" "bad" = Normal false /\
  fst (submitStar "addr1" message1 "bad" "Vega"
                  (t0 + 10000) (t0 + 10000) ledger1) =
  Rejected (Str invalid_message).
Proof.
  assert (Hf : JS.gt (elapsed (t0 + 10000) message1) 300 = false)
    by reflexivity.
  assert (Hv : verify message1 "addr1" "bad" = Normal false) by reflexivity.
  exact (conj Hf (conj Hv
           (@submitStar_fresh_invalid_signature
              _ "addr1" message1 "bad" "Vega" (t0 + 10000) (t0 + 10000)
              ledger1 Hf Hv))).
Defined.

Lemma submitStar_fresh_valid_resolves_witness :
  reachable ledger0 /\
  JS.gt (elapsed (t0 + 10000) message1) 300 = false /\
  verify message1 "addr1" signature1 = Normal true /\
  collision_free
    (chain (snd (submitStar "addr1" message1 signature1 "Vega"
                            (t0 + 10000) (t0 + 10000) ledger0))) /\
  exists b,
    submitStar "addr1" message1 signature1 "Vega"
               (t0 + 10000) (t0 + 10000) ledger0 =
      (Fulfilled b, mkChain (chain ledger0 ++ [b]) (height ledger0 + 1)) /\
    Block.height b = Z.of_nat (List.length (chain ledger0)) /\
    Block.body b = encode (StarData "addr1" message1 signature1 "Vega") /\
    Block.time b = JS.seconds_text (t0 + 10000).
Proof.
  assert (Hf : JS.gt (elapsed (t0 + 10000) message1) 300 = false)
    by reflexivity.
  assert (Hv : verify message1 "addr1" signature1 = Normal true)
    by reflexivity.
  exact (conj ledger0_reachable (conj Hf (conj Hv
           (conj ledger1_collision_free
              (@submitStar_fresh_valid_resolves
                 _ "addr1" message1 signature1 "Vega" (t0 + 10000)
                 (t0 + 10000) ledger0 ledger0_reachable Hf Hv
                 ledger1_collision_free))))).
Defined.

Lemma submitStar_issued_message_expires_witness :
  lacks ":" "addr1" = true /\
  1000 <= t0 /\
  1000 <= t0 + 400000 /\
  (t0 + 400000) / 1000 - t0 / 1000 > 300 /\
  fst (submitStar "addr1"
         ("addr1" ++ ":" ++ JS.seconds_text t0 ++ ":starRegistry")%string
         signature1 "Vega" (t0 + 400000) (t0 + 400000) ledger1) =
  Rejected (Str expired_message).
Proof.
  assert (Ha : lacks ":" "addr1" = true) by reflexivity.
  assert (Hi : 1000 <= t0) by (unfold t0; lia).
  assert (Hn : 1000 <= t0 + 400000) by (unfold t0; lia).
  assert (Hgt : (t0 + 400000) / 1000 - t0 / 1000 > 300) by reflexivity.
  exact (conj Ha (conj Hi (conj Hn (conj Hgt
           (@submitStar_issued_message_expires
              _ "addr1" signature1 "Vega" t0 (t0 + 400000) (t0 + 400000)
              ledger1 Ha Hi Hn Hgt))))).
Defined.

Lemma submitStar_issued_message_in_time_witness :
  lacks ":" "addr1" = true /\
  1000 <= t0 /\
  1000 <= t0 + 10000 /\
  (t0 + 10000) / 1000 - t0 / 1000 <= 300 /\
  verify ("addr1" ++ ":" ++ JS.seconds_text t0 ++ ":starRegistry")%string
         "addr1" signature1 = Normal true /\
  reachable ledger0 /\
  exists b,
    submitStar "addr1"
      ("addr1" ++ ":" ++ JS.seconds_text t0 ++ ":starRegistry")%string
      signature1 "Vega" (t0 + 10000) (t0 + 10000) ledger0 =
      (Fulfilled b, mkChain (chain ledger0 ++ [b]) (height ledger0 + 1)) /\
    Block.height b = height ledger0 + 1 /\
    Block.body b =
      encode (StarData "addr1"
                ("addr1" ++ ":" ++ JS.seconds_text t0 ++
                 ":starRegistry")%string
                signature1 "Vega").
Proof.
  assert (Ha : lacks ":" "addr1" = true) by reflexivity.
  assert (Hi : 1000 <= t0) by (unfold t0; lia).
  assert (Hn : 1000 <= t0 + 10000) by (unfold t0; lia).
  assert (Hle : (t0 + 10000) / 1000 - t0 / 1000 <= 300) by discriminate.
  assert (Hv : verify ("addr1" ++ ":" ++ JS.seconds_text t0 ++
                       ":starRegistry")%string
                      "addr1" signature1 = Normal true) by reflexivity.
  exact (conj Ha (conj Hi (conj Hn (conj Hle (conj Hv
           (conj ledger0_reachable
              (@submitStar_issued_message_in_time
                 _ "addr1" signature1 "Vega" t0 (t0 + 10000) (t0 + 10000)
                 ledger0 Ha Hi Hn Hle Hv ledger0_reachable
                 ledger1_collision_free))))))).
Defined.

Lemma getBlockByHash_stored_record_witness :
  collision_free (chain ledger1) /\
  nth_error (chain ledger1) 1 = Some record1 /\
  getBlockByHash (Block.hash record1) ledger1 = Fulfilled record1.
Proof.
  assert (Hi : nth_error (chain ledger1) 1 = Some record1) by reflexivity.
  exact (conj ledger1_collision_free (conj Hi
           (@getBlockByHash_stored_record ledger1 1%nat record1
                                          ledger1_collision_free Hi))).
Defined.

Lemma getBlockByHash_null_not_found_witness :
  reachable ledger1 /\
  getBlockByHash None ledger1 = Rejected (Str not_found_message).
Proof.
  exact (conj ledger1_reachable
              (@getBlockByHash_null_not_found _ ledger1 ledger1_reachable)).
Defined.

Lemma getBlockByHeight_reachable_witness :
  reachable ledger1 /\
  getBlockByHeight 1 ledger1 = Fulfilled (index (chain ledger1) 1) /\
  getBlockByHeight 2 ledger1 = Fulfilled (index (chain ledger1) 2).
Proof.
  exact (conj ledger1_reachable
           (conj (@getBlockByHeight_reachable _ 1 ledger1 ledger1_reachable)
                 (@getBlockByHeight_reachable _ 2 ledger1
                                              ledger1_reachable))).
Defined.

Lemma reachable_records_sealed_witness :
  reachable ledger1 /\
  nth_error (chain ledger1) 1 = Some record1 /\
  Block.height record1 = Z.of_nat 1 /\
  Block_validate record1 = true /\
  Block.hash record1 <> None.
Proof.
  assert (Hi : nth_error (chain ledger1) 1 = Some record1) by reflexivity.
  exact (conj ledger1_reachable (conj Hi
           (@reachable_records_sealed _ ledger1 1%nat record1
                                      ledger1_reachable Hi))).
Defined.

Lemma validateChain_reports_exactly_witness :
  (forall b, In b (chain relinked) -> Block_validate b = true) /\
  exists errorLog,
    validateChain relinked = Fulfilled errorLog /\
    forall msg,
      In msg errorLog <->
      exists b,
        In b (chain relinked) /\ unlinked (chain relinked) b /\
        msg = broken_message (Block.height b).
Proof.
  exact (conj relinked_digests_match
              (@validateChain_reports_exactly _ relinked
                                              relinked_digests_match)).
Defined.

Lemma validateChain_reports_unlinked_witness :
  (forall x, In x (chain relinked) -> Block_validate x = true) /\
  In relinked_record (chain relinked) /\
  Block.height relinked_record <> 0 /\
  (forall p, In p (chain relinked) ->
             Block.hash p <> Block.previousBlockHash relinked_record) /\
  exists errorLog,
    validateChain relinked = Fulfilled errorLog /\
    In (broken_message (Block.height relinked_record)) errorLog.
Proof.
  assert (Hin : In relinked_record (chain relinked))
    by (right; left; reflexivity).
  assert (Hh : Block.height relinked_record <> 0) by discriminate.
  assert (Hp : forall p, In p (chain relinked) ->
                         Block.hash p <>
                         Block.previousBlockHash relinked_record)
    by (intros p [<-|[<-|[]]]; discriminate).
  exact (conj relinked_digests_match (conj Hin (conj Hh (conj Hp
           (@validateChain_reports_unlinked
              _ relinked relinked_record relinked_digests_match
              Hin Hh Hp))))).
Defined.

Lemma validateChain_height_zero_unchecked_witness :
  (forall b, In b (chain stray) ->
             Block_validate b = true /\ Block.height b = 0) /\
  validateChain stray = Fulfilled [].
Proof.
  assert (H : forall b, In b (chain stray) ->
                        Block_validate b = true /\ Block.height b = 0)
    by (intros b [<-|[<-|[]]]; split; reflexivity).
  exact (conj H (@validateChain_height_zero_unchecked _ stray H)).
Defined.

Lemma submitted_star_listed_witness :
  consistent ledger0 /\
  verify message1 "addr1" signature1 = Normal true /\
  decode (encode (StarData "addr1" message1 signature1 "Vega")) =
    Some (StarData "addr1" message1 signature1 "Vega") /\
  stars (resume_all "addr1"
           (getStarsByWalletAddress "addr1"
              (snd (submitStar "addr1" message1 signature1 "Vega"
                               (t0 + 10000) (t0 + 10000) ledger0)))) =
  stars (resume_all "addr1" (getStarsByWalletAddress "addr1" ledger0)) ++
  [mkStar "addr1" "Vega"].
Proof.
  assert (Hc : consistent ledger0) by reflexivity.
  assert (Hv : verify message1 "addr1" signature1 = Normal true)
    by reflexivity.
  assert (Hd : decode (encode (StarData "addr1" message1 signature1 "Vega")) =
               Some (StarData "addr1" message1 signature1 "Vega"))
    by reflexivity.
  exact (conj Hc (conj Hv (conj Hd
           (@submitted_star_listed
              _ "addr1" message1 signature1 "Vega" (t0 + 10000)
              (t0 + 10000) ledger0 true Hc Hv Hd)))).
Defined.

Lemma resumed_stars_empty_witness :
  (forall b a message signature st,
      In b (chain ledger1) ->
      Block_getBData b = Some (StarData a message signature st) ->
      a <> "addr9"%string) /\
  stars (resume_all "addr9" (getStarsByWalletAddress "addr9" ledger1)) = [].
Proof.
  assert (H : forall b a message signature st,
             In b (chain ledger1) ->
             Block_getBData b = Some (StarData a message signature st) ->
             a <> "addr9"%string).
  { intros b a m sg st [<-|[<-|[]]] Hd; vm_compute in Hd;
      [discriminate Hd|injection Hd as <- _ _ _; discriminate]. }
  exact (conj H (@resumed_stars_empty _ "addr9" ledger1 H)).
Defined.

End SampleExtras.
